(** * hdbscan/prediction.py: predicting cluster membership of unseen points

    A shallow embedding of [src/hdbscan/prediction.py] and the properties of
    its functions.

    Conventions of the embedding.
    - A NumPy [float64] is a primitive binary64 float ([PrimFloat.float]);
      every comparison and division below is the IEEE 754 operation the
      kernel evaluates, so [nan], the infinities and the signed zeros behave
      as they do in NumPy.  A NumPy division by zero yields an infinity (and
      a [RuntimeWarning], which is not an exception).
    - A Python [int] or NumPy [intp] is a [Z].
    - A one dimensional NumPy array is a [list]; reading it at an integer
      follows NumPy: negative positions count from the end, a position out
      of range raises [IndexError].
    - A structured array (the condensed tree) is a list of [tree_row]
      records, read by field name as the source does; [a[mask]] is a
      [filter].
    - A [dict] is a [gmap].
    - A Python exception is a value of [exn]; code that can raise returns a
      [result].  A [while] loop takes a fuel argument, and running out of it
      is the outcome [Raise LoopFuelExhausted], which is no Python exception:
      it stands for the loop not having finished within the given number of
      iterations. *)

From Stdlib Require Import ZArith List Bool Lia String Floats.
From stdpp Require Import base option list gmap strings.
Import ListNotations.

Local Open Scope Z_scope.

(** ** Exceptions and results *)

Inductive exn : Type :=
| IndexError
| KeyError
| TypeError
| ValueError (msg : string)
| NameError (name : string)
| LoopFuelExhausted.

Inductive result (A : Type) : Type :=
| Ok (a : A)
| Raise (e : exn).

Arguments Ok {A} a.
Arguments Raise {A} e.

(** Sequencing: an exception in the first computation ends the whole. *)
#[global] Instance result_bind : MBind result := fun A B k c =>
  match c with
  | Ok a => k a
  | Raise e => Raise e
  end.

Definition is_ok {A : Type} (r : result A) : bool :=
  match r with Ok _ => true | Raise _ => false end.

Fixpoint traverse {A B : Type} (f : A -> result B) (l : list A) : result (list B) :=
  match l with
  | [] => Ok []
  | x :: l' => y ← f x; ys ← traverse f l'; Ok (y :: ys)
  end.

(** A [for] loop with a body that can raise, over an accumulated state. *)
Fixpoint for_each {A S : Type} (body : S -> A -> result S) (l : list A) (s : S) : result S :=
  match l with
  | [] => Ok s
  | x :: l' => s' ← body s x; for_each body l' s'
  end.

(** ** The condensed tree *)

(** A record of the condensed tree, with the fields the source reads by
    name. *)
Record tree_row : Type := TreeRow {
  parent : Z;
  child : Z;
  lambda_val : float;
  child_size : Z
}.

(** A number as a tuple or a plain numeric array holds it. *)
Inductive scalar : Type :=
| SInt (z : Z)
| SFloat (f : float).

(** The two kinds of array that meet in [np.append]: a record array, and a
    plain numeric array. *)
Inductive ndarray : Type :=
| RecordArray (rows : list tree_row)
| NumericArray (xs : list scalar).

(** ** NumPy primitives *)

Module np.

(** [a[i]] for a one dimensional array [a] and an integer [i]. *)
Definition getitem {A : Type} (a : list A) (i : Z) : result A :=
  let n := Z.of_nat (length a) in
  let j := if i <? 0 then i + n else i in
  if (0 <=? j) && (j <? n) then
    match a !! Z.to_nat j with
    | Some x => Ok x
    | None => Raise IndexError
    end
  else Raise IndexError.

(** [a[idx]] for an integer array [idx]: one read of [a] per entry. *)
Definition take {A : Type} (a : list A) (idx : list Z) : result (list A) :=
  traverse (getitem a) idx.

(** The scalar kernel of [np.maximum] and of the [max] reduction:
    [(a >= b || isnan(a)) ? a : b], which lets a [nan] through. *)
Definition maximum (a b : float) : float :=
  if (PrimFloat.leb b a) || is_nan a then a else b.

(** [np.vstack((r0, r1, r2)).max(axis=0)]: the rows must have one length;
    the reduction goes down each column from the first row. *)
Definition vstack3_max (r0 r1 r2 : list float) : result (list float) :=
  if Nat.eqb (length r0) (length r1) && Nat.eqb (length r1) (length r2) then
    Ok (zip_with maximum (zip_with maximum r0 r1) r2)
  else
    Raise (ValueError "all the input array dimensions must match exactly").

(** The scan of [argmin] over the elements after the first: [mp] is the
    least value so far, [ind] its position, [i] the position of the head of
    [l].  An element replaces [mp] when [!(x >= mp)]; a [nan] ends the
    scan. *)
Fixpoint argmin_scan (mp : float) (ind i : nat) (l : list float) : nat :=
  match l with
  | [] => ind
  | x :: l' =>
      if negb (PrimFloat.leb mp x) then
        if is_nan x then i else argmin_scan x i (S i) l'
      else argmin_scan mp ind (S i) l'
  end.

(** [a.argmin()] on a one dimensional [float64] array. *)
Definition argmin (a : list float) : result nat :=
  match a with
  | [] => Raise (ValueError "attempt to get argmin of an empty sequence")
  | x :: l => Ok (if is_nan x then 0%nat else argmin_scan x 0%nat 1%nat l)
  end.

(** [a.min()] on a one dimensional integer array. *)
Definition min (a : list Z) : result Z :=
  match a with
  | [] => Raise (ValueError "zero-size array to reduction operation minimum which has no identity")
  | x :: l => Ok (fold_left Z.min l x)
  end.

(** [a.max()] on a one dimensional [float64] array. *)
Definition max (a : list float) : result float :=
  match a with
  | [] => Raise (ValueError "zero-size array to reduction operation maximum which has no identity")
  | x :: l => Ok (fold_left maximum l x)
  end.

(** The truth value of a boolean array, as a [while] or an [and] takes it:
    an empty array is false, an array of one element is that element, a
    longer one raises. *)
Definition truth (a : list bool) : result bool :=
  match a with
  | [] => Ok false
  | [b] => Ok b
  | _ => Raise (ValueError "The truth value of an array with more than one element is ambiguous")
  end.

(** [np.ones(n)]. *)
Definition ones (n : nat) : list float := replicate n 1%float.

(** The number of dimensions of the arrays of this file: lists are one
    dimensional. *)
Definition ndim {A : Type} (a : list A) : nat := 1.

(** [a[:, :2]]: an index of two slices.  NumPy refuses an index with more
    entries than the array has dimensions ("too many indices for array");
    on an array of two dimensions or more the index keeps the first two
    columns, which for the tree are [parent] and [child]. *)
Definition getitem_two_columns (a : list tree_row) : result (list (list Z)) :=
  if (2 <=? ndim a)%nat then Ok (map (fun r => [parent r; child r]) a)
  else Raise IndexError.

(** [np.ravel(values)] for a tuple of numbers: a plain numeric array. *)
Definition ravel (values : list scalar) : ndarray := NumericArray values.

(** [np.concatenate((a, b))] of one dimensional arrays.  NumPy looks for
    the common dtype of the arrays; a record dtype has one with the same
    record dtype only, and with [float64] the search raises [TypeError]
    ("invalid type promotion"). *)
Definition concatenate (a b : ndarray) : result ndarray :=
  match a, b with
  | RecordArray r1, RecordArray r2 => Ok (RecordArray (r1 ++ r2))
  | NumericArray x1, NumericArray x2 => Ok (NumericArray (x1 ++ x2))
  | _, _ => Raise TypeError
  end.

(** [np.append(arr, values)] with no axis, for a one dimensional [arr]:
    [concatenate((arr, ravel(values)))].  The values are ravelled into a
    plain array of their own before they meet [arr]. *)
Definition append (arr : ndarray) (values : list scalar) : result ndarray :=
  concatenate arr (ravel values).

End np.

(** The builtin [min(a, b)] of Python: [b] when [b < a], else [a]. *)
Definition py_min (a b : float) : float :=
  if (b <? a)%float then b else a.

(** [a or b] of Python for an optional integer [a]: [b] when [a] is [None]
    or zero. *)
Definition py_or (a : option Z) (b : Z) : Z :=
  match a with
  | Some x => if x =? 0 then b else x
  | None => b
  end.

(** ** The nearest neighbour under mutual reachability

    [_find_neighbor_and_lambda], lines 118 to 162. *)

(** Lines 149 and 150:
    [neighbor_distances[min_samples] * np.ones(neighbor_indices.shape[0])]. *)
Definition point_core_distances (neighbor_indices : list Z)
    (neighbor_distances : list float) (min_samples : Z) : result (list float) :=
  d ← np.getitem neighbor_distances min_samples;
  Ok (map (fun one => (d * one)%float) (np.ones (length neighbor_indices))).

(** Lines 148 to 155: the mutual reachability distance of every
    candidate. *)
Definition mr_distances (neighbor_indices : list Z) (neighbor_distances : list float)
    (core_distances : list float) (min_samples : Z) : result (list float) :=
  neighbor_core_distances ← np.take core_distances neighbor_indices;
  point_core ← point_core_distances neighbor_indices neighbor_distances min_samples;
  np.vstack3_max neighbor_core_distances point_core neighbor_distances.

Definition _find_neighbor_and_lambda (neighbor_indices : list Z)
    (neighbor_distances : list float) (core_distances : list float)
    (min_samples : Z) : result (Z * float) :=
  mr ← mr_distances neighbor_indices neighbor_distances core_distances min_samples;
  nn_index ← np.argmin mr;
  nearest_neighbor ← np.getitem neighbor_indices (Z.of_nat nn_index);
  m ← np.getitem mr (Z.of_nat nn_index);
  Ok (nearest_neighbor, (1 / m)%float).

(** ** Walking up the tree *)

(** Modelled from the spec: [get_tree_row_with_child] of the compiled module
    [_prediction_utils], which is not among the sources.  The spec has it as
    [row_for_child(NodeId) -> Record], "locate the record whose [child]
    equals the resolved nearest neighbor's id", and failing with an invalid
    argument error "if the resolved neighbor id is not found in the
    hierarchy". *)
Fixpoint get_tree_row_with_child (tree : list tree_row) (c : Z) : result tree_row :=
  match tree with
  | [] => Raise (ValueError "child not found in the tree")
  | r :: tree' => if child r =? c then Ok r else get_tree_row_with_child tree' c
  end.

(** [tree[tree['child'] == c]]. *)
Definition rows_with_child (tree : list tree_row) (c : Z) : list tree_row :=
  List.filter (fun r => child r =? c) tree.

(** The test of the [while] loops of lines 214 and 276:
    [potential_cluster > tree_root and tree[...]['lambda_val'] >= lambda_].
    The right operand is an array and is only looked at when the left one
    holds. *)
Definition ascend_test (tree : list tree_row) (tree_root : Z) (lambda_ : float)
    (potential_cluster : Z) : result bool :=
  if tree_root <? potential_cluster then
    np.truth (map (fun r => (lambda_ <=? lambda_val r)%float)
                  (rows_with_child tree potential_cluster))
  else Ok false.

(** The [while] loops of lines 214 to 218 and 276 to 280: as long as the
    test holds, move to [tree['parent'][tree['child'] == potential_cluster][0]]. *)
Fixpoint ascend (fuel : nat) (tree : list tree_row) (tree_root : Z) (lambda_ : float)
    (potential_cluster : Z) : result Z :=
  match fuel with
  | O => Raise LoopFuelExhausted
  | S fuel' =>
      continue ← ascend_test tree tree_root lambda_ potential_cluster;
      if continue : bool then
        p ← np.getitem (map parent (rows_with_child tree potential_cluster)) 0;
        ascend fuel' tree tree_root lambda_ p
      else Ok potential_cluster
  end.

(** ** Extending the condensed tree

    [_extend_condensed_tree], lines 165 to 222. *)

(** Lines 205 to 220: the tuple [new_tree_row]. *)
Definition new_tree_row (fuel : nat) (tree : list tree_row) (tree_root : Z)
    (nearest_neighbor : Z) (lambda_ : float) : result (list scalar) :=
  neighbor_tree_row ← get_tree_row_with_child tree nearest_neighbor;
  let potential_cluster := parent neighbor_tree_row in
  if (lambda_val neighbor_tree_row <=? lambda_)%float then
    Ok [SInt potential_cluster; SInt (-1); SInt 1; SFloat (lambda_val neighbor_tree_row)]
  else
    potential_cluster ← ascend fuel tree tree_root lambda_ potential_cluster;
    Ok [SInt potential_cluster; SInt (-1); SInt 1; SFloat lambda_].

Definition _extend_condensed_tree (fuel : nat) (tree : list tree_row)
    (neighbor_indices : list Z) (neighbor_distances : list float)
    (core_distances : list float) (min_samples : Z) : result ndarray :=
  tree_root ← np.min (map parent tree);
  '(nearest_neighbor, lambda_) ←
    _find_neighbor_and_lambda neighbor_indices neighbor_distances core_distances min_samples;
  row ← new_tree_row fuel tree tree_root nearest_neighbor lambda_;
  np.append (RecordArray tree) row.

(** ** Label and probability of one point

    [_find_cluster_and_probability], lines 225 to 298. *)

(** Lines 282 to 298: from the enclosing node and the lambda of the point
    to the label and the probability. *)
Definition label_and_probability (cluster_map : gmap Z Z) (max_lambdas : gmap Z float)
    (potential_cluster : Z) (lambda_ : float) : result (Z * float) :=
  let cluster_label :=
    match cluster_map !! potential_cluster with
    | Some l => l
    | None => -1
    end in
  if 0 <=? cluster_label then
    match max_lambdas !! potential_cluster with
    | None => Raise KeyError
    | Some max_lambda =>
        if (0 <? max_lambda)%float then
          let lambda_ := py_min max_lambda lambda_ in
          Ok (cluster_label, (lambda_ / max_lambda)%float)
        else Ok (cluster_label, 1%float)
    end
  else Ok (cluster_label, 0%float).

(** Lines 262 to 280: the node that encloses the point, and the lambda of
    the point.  [raw_tree] is [tree._raw_tree]. *)
Definition enclosing_node (fuel : nat) (raw_tree cluster_tree : list tree_row)
    (neighbor_indices : list Z) (neighbor_distances : list float)
    (core_distances : list float) (min_samples : Z) : result (Z * float) :=
  tree_root ← np.min (map parent cluster_tree);
  '(nearest_neighbor, lambda_) ←
    _find_neighbor_and_lambda neighbor_indices neighbor_distances core_distances min_samples;
  neighbor_tree_row ← get_tree_row_with_child raw_tree nearest_neighbor;
  let potential_cluster := parent neighbor_tree_row in
  if (lambda_ <? lambda_val neighbor_tree_row)%float then
    potential_cluster ← ascend fuel cluster_tree tree_root lambda_ potential_cluster;
    Ok (potential_cluster, lambda_)
  else Ok (potential_cluster, lambda_).

Definition _find_cluster_and_probability (fuel : nat) (raw_tree cluster_tree : list tree_row)
    (neighbor_indices : list Z) (neighbor_distances : list float)
    (core_distances : list float) (cluster_map : gmap Z Z) (max_lambdas : gmap Z float)
    (min_samples : Z) : result (Z * float) :=
  '(potential_cluster, lambda_) ←
    enclosing_node fuel raw_tree cluster_tree neighbor_indices neighbor_distances
      core_distances min_samples;
  label_and_probability cluster_map max_lambdas potential_cluster lambda_.

(** ** Prediction data and the batch predictor *)

(** The attributes of a [PredictionData] object that prediction reads.
    [raw_data_shape] is [raw_data.shape]; [tree_query points k] is
    [tree.query(points, k=k)] of the space tree, which returns the
    distances and the indices, one row per point. *)
Record PredictionData : Type := {
  raw_data_shape : Z * Z;
  tree_query : list (list float) -> Z -> result (list (list float) * list (list Z));
  core_distances : list float;
  cluster_map : gmap Z Z;
  cluster_tree : list tree_row;
  max_lambdas : gmap Z float
}.

(** The attributes of the clusterer that [approximate_predict] reads.
    [condensed_tree_] is the record array [condensed_tree_._raw_tree]. *)
Record HDBSCAN : Type := {
  prediction_data_ : option PredictionData;
  condensed_tree_ : list tree_row;
  min_samples : option Z;
  min_cluster_size : Z
}.

(** [np.asarray(points_to_predict)]: an array of [n_samples] rows and
    [n_features] columns. *)
Record points : Type := {
  shape : Z * Z;
  rows : list (list float)
}.

(** What [approximate_predict] does beyond the two checks, in the order it
    does it: the query of the space tree, and the work on each point. *)
Inductive event : Type :=
| QueryTree (k : Z)
| PredictPoint (i : Z).

(** The body of the loop of lines 358 to 370 for the point [i]. *)
Definition predict_point (fuel : nat) (clusterer : HDBSCAN) (pd : PredictionData)
    (neighbor_distances : list (list float)) (neighbor_indices : list (list Z))
    (min_samples : Z) (acc : list Z * list float) (i : Z) : result (list Z * list float) :=
  indices_i ← np.getitem neighbor_indices i;
  distances_i ← np.getitem neighbor_distances i;
  '(label, prob) ←
    _find_cluster_and_probability fuel (condensed_tree_ clusterer) (cluster_tree pd)
      indices_i distances_i (core_distances pd) (cluster_map pd) (max_lambdas pd)
      min_samples;
  Ok (acc.1 ++ [label], acc.2 ++ [prob]).

(** The loop of lines 358 to 370 over the points [todo], with the events in
    the order they happen: the loop ends at the first exception. *)
Fixpoint predict_loop (fuel : nat) (clusterer : HDBSCAN) (pd : PredictionData)
    (neighbor_distances : list (list float)) (neighbor_indices : list (list Z))
    (min_samples : Z) (todo : list Z) (acc : list Z * list float)
    : list event * result (list Z * list float) :=
  match todo with
  | [] => ([], Ok acc)
  | i :: todo' =>
      match predict_point fuel clusterer pd neighbor_distances neighbor_indices
              min_samples acc i with
      | Ok acc' =>
          let '(evs, r) := predict_loop fuel clusterer pd neighbor_distances
                             neighbor_indices min_samples todo' acc' in
          (PredictPoint i :: evs, r)
      | Raise e => ([PredictPoint i], Raise e)
      end
  end.

(** [range(n)]. *)
Definition range (n : Z) : list Z := map Z.of_nat (seq 0 (Z.to_nat n)).

Definition no_prediction_data : string :=
  "Clusterer does not have prediction data! Try fitting with prediction_data=True set, or run generate_preiction_data on the clusterer".

Definition dimension_mismatch : string :=
  "New points dimension does not match fit data!".

(** Line 353: [clusterer.min_samples or clusterer.min_cluster_size]. *)
Definition min_samples_of (clusterer : HDBSCAN) : Z :=
  py_or (min_samples clusterer) (min_cluster_size clusterer).

(** [approximate_predict], lines 301 to 372.  The first component of the
    outcome lists the query of the tree and the points worked on, in
    order. *)
Definition approximate_predict (fuel : nat) (clusterer : HDBSCAN) (points_to_predict : points)
    : list event * result (list Z * list float) :=
  match prediction_data_ clusterer with
  | None => ([], Raise (ValueError no_prediction_data))
  | Some pd =>
      if negb ((shape points_to_predict).2 =? (raw_data_shape pd).2) then
        ([], Raise (ValueError dimension_mismatch))
      else
        let min_samples := min_samples_of clusterer in
        match tree_query pd (rows points_to_predict) (2 * min_samples) with
        | Raise e => ([QueryTree (2 * min_samples)], Raise e)
        | Ok (neighbor_distances, neighbor_indices) =>
            let '(evs, r) :=
              predict_loop fuel clusterer pd neighbor_distances neighbor_indices
                min_samples (range (shape points_to_predict).1) ([], []) in
            (QueryTree (2 * min_samples) :: evs, r)
        end
  end.

(** ** Building the prediction data

    [PredictionData.__init__], lines 81 to 115, and [_clusters_below]. *)

(** The names bound at module level in [prediction.py]; the constructor
    binds [exemplars] nowhere, so the name is looked up here (no builtin
    has that name). *)
Definition module_globals : list string :=
  ["np"; "KDTree"; "BallTree"; "get_tree_row_with_child"; "PredictionData";
   "_find_neighbor_and_lambda"; "_extend_condensed_tree";
   "_find_cluster_and_probability"; "approximate_predict";
   "reclustering_predict"; "membership_vector"]%string.

(** Reading a name that the function does not assign. *)
Definition read_global (name : string) : result unit :=
  if bool_decide (name ∈ module_globals) then Ok () else Raise (NameError name).

(** [dict(zip(keys, values))]: a later pair replaces an earlier one with
    the same key. *)
Definition dict_zip {V : Type} (keys : list Z) (values : list V) : gmap Z V :=
  fold_left (fun m kv => <[kv.1 := kv.2]> m) (zip keys values) ∅.

(** [d[k]] for a dict. *)
Definition dict_get {V : Type} (d : gmap Z V) (k : Z) : result V :=
  match d !! k with
  | Some v => Ok v
  | None => Raise KeyError
  end.

(** [set(a.flatten())] as the list of the distinct values. *)
Definition distinct_values (a : list (list Z)) : list Z :=
  remove_dups (concat a).

(** [_clusters_below], lines 68 to 79; [found] is the list [result] of the
    source. *)
Fixpoint _clusters_below (fuel : nat) (cluster_tree : list tree_row)
    (to_process found : list Z) : result (list Z) :=
  match fuel with
  | O => Raise LoopFuelExhausted
  | S fuel' =>
      match to_process with
      | [] => Ok found
      | _ =>
          _clusters_below fuel' cluster_tree
            (map child (List.filter (fun r => bool_decide (parent r ∈ to_process)) cluster_tree))
            (found ++ to_process)
      end
  end.

(** The state of the object while the constructor runs. *)
Record init_state : Type := {
  st_cluster_map : gmap Z Z;
  st_max_lambdas : gmap Z float;
  st_leaf_max_lambdas : gmap Z float
}.

Section PredictionData_init.

(** The collaborators of the constructor: the space tree classes of
    scikit-learn, the [CondensedTree] object, and the [max] reduction of a
    record array, whose outcome NumPy leaves to the dtype. *)
Context {data space_tree condensed : Type}.
Variable _tree_type_map : gmap string (data -> string -> result space_tree).
Variable query_distances : space_tree -> data -> Z -> result (list (list float)).
Variable tree_query_of : space_tree -> list (list float) -> Z -> result (list (list float) * list (list Z)).
Variable data_shape : data -> Z * Z.
Variable _select_clusters : condensed -> result (list Z).
Variable to_numpy : condensed -> result (list tree_row).
Variable record_max : list tree_row -> result float.

(** Lines 107 to 113: the body of the loop over the clusters below a
    selected cluster. *)
Definition init_sub_cluster (raw_condensed_tree : list tree_row) (cluster : Z)
    (st : init_state) (sub_cluster : Z) : result init_state :=
  label ← dict_get (st_cluster_map st) cluster;
  let st := {| st_cluster_map := <[sub_cluster := label]> (st_cluster_map st);
               st_max_lambdas := st_max_lambdas st;
               st_leaf_max_lambdas := st_leaf_max_lambdas st |} in
  max_lambda ← dict_get (st_max_lambdas st) cluster;
  let st := {| st_cluster_map := st_cluster_map st;
               st_max_lambdas := <[sub_cluster := max_lambda]> (st_max_lambdas st);
               st_leaf_max_lambdas := st_leaf_max_lambdas st |} in
  leaf ← dict_get (st_leaf_max_lambdas st) cluster;
  let exemplar_points :=
    List.filter (fun r => (lambda_val r =? leaf)%float) raw_condensed_tree in
  _ ← read_global "exemplars";
  Ok st.

(** Lines 102 to 113: the body of the loop over the selected clusters. *)
Definition init_selected_cluster (fuel : nat) (raw_condensed_tree cluster_tree : list tree_row)
    (st : init_state) (cluster : Z) : result init_state :=
  max_lambda ←
    np.max (map lambda_val (List.filter (fun r => parent r =? cluster) raw_condensed_tree));
  let st := {| st_cluster_map := st_cluster_map st;
               st_max_lambdas := <[cluster := max_lambda]> (st_max_lambdas st);
               st_leaf_max_lambdas := st_leaf_max_lambdas st |} in
  below ← _clusters_below fuel cluster_tree [cluster] [];
  for_each (init_sub_cluster raw_condensed_tree cluster) below st.

(** Lines 98 to 100: the body of the loop over the nodes of the cluster
    tree. *)
Definition init_leaf_max_lambda (raw_condensed_tree : list tree_row)
    (st : init_state) (cluster : Z) : result init_state :=
  m ← record_max (List.filter (fun r => parent r =? cluster) raw_condensed_tree);
  Ok {| st_cluster_map := st_cluster_map st;
        st_max_lambdas := st_max_lambdas st;
        st_leaf_max_lambdas := <[cluster := m]> (st_leaf_max_lambdas st) |}.

(** Lines 98 to 115, once the two columns are at hand: the three loops and
    the last line, which reads [exemplars]. *)
Definition init_fill (fuel : nat) (raw_condensed_tree cluster_tree : list tree_row)
    (selected_clusters : list Z) (columns : list (list Z)) (st : init_state)
    : result init_state :=
  st ← for_each (init_leaf_max_lambda raw_condensed_tree) (distinct_values columns) st;
  st ← for_each (init_selected_cluster fuel raw_condensed_tree cluster_tree)
         selected_clusters st;
  _ ← read_global "exemplars";
  Ok st.

(** [PredictionData.__init__]: the object when the constructor returns
    normally, or the exception it raises. *)
Definition PredictionData_init (fuel : nat) (raw_data : data) (condensed_tree : condensed)
    (min_samples : Z) (tree_type metric : string) : result PredictionData :=
  tree_class ← match _tree_type_map !! tree_type with
               | Some c => Ok c
               | None => Raise KeyError
               end;
  tree ← tree_class raw_data metric;
  distances ← query_distances tree raw_data min_samples;
  core_distances ← traverse (fun row => np.getitem row (-1)) distances;
  selected_clusters ← _select_clusters condensed_tree;
  raw_condensed_tree ← to_numpy condensed_tree;
  let cluster_map :=
    dict_zip selected_clusters (range (Z.of_nat (length selected_clusters))) in
  let cluster_tree := List.filter (fun r => 1 <? child_size r) raw_condensed_tree in
  let st := {| st_cluster_map := cluster_map;
               st_max_lambdas := ∅;
               st_leaf_max_lambdas := ∅ |} in
  columns ← np.getitem_two_columns cluster_tree;
  st ← init_fill fuel raw_condensed_tree cluster_tree selected_clusters columns st;
  Ok {| raw_data_shape := data_shape raw_data;
        tree_query := tree_query_of tree;
        core_distances := core_distances;
        cluster_map := st_cluster_map st;
        cluster_tree := cluster_tree;
        max_lambdas := st_max_lambdas st |}.

End PredictionData_init.

(** ** Vocabulary of the statements *)

(** A float that is a number. *)
Definition not_nan (x : float) : Prop := is_nan x = false.

(** A float that a distance can be: zero, a positive number or infinity,
    with the sign bit clear. *)
Definition is_distance (x : float) : bool :=
  match classify x with
  | PZero | PSubn | PNormal | PInf => true
  | _ => false
  end.

(** The value [v] is the greatest of [c], [p] and [d]. *)
Definition is_max_of3 (v c p d : float) : Prop :=
  (v = c \/ v = p \/ v = d) /\
  (c <=? v)%float = true /\ (p <=? v)%float = true /\ (d <=? v)%float = true.

(** [m] is the value of [a] at [k], no value of [a] is below it, and every
    value before [k] is strictly above it. *)
Definition first_min (a : list float) (k : nat) (m : float) : Prop :=
  a !! k = Some m /\
  (forall j x, a !! j = Some x -> (m <=? x)%float = true) /\
  (forall j x, (j < k)%nat -> a !! j = Some x -> (m <? x)%float = true).

(** The array is in ascending order. *)
Definition sorted_ascending (a : list float) : Prop :=
  forall i j x y, (i <= j)%nat -> a !! i = Some x -> a !! j = Some y ->
                  (x <=? y)%float = true.

(** A query as the spatial index hands it over: [min_samples] is not
    negative, there are at least [min_samples + 1] candidates, as many
    distances as indices, every index is a row of the fitted data, and
    every distance is a number. *)
Record query_ok (neighbor_indices : list Z) (neighbor_distances core_distances : list float)
    (min_samples : Z) : Prop := {
  q_min_samples : 0 <= min_samples;
  q_enough : min_samples + 1 <= Z.of_nat (length neighbor_distances);
  q_same_length : length neighbor_indices = length neighbor_distances;
  q_indices : Forall (fun i => 0 <= i < Z.of_nat (length core_distances)) neighbor_indices;
  q_distances : Forall not_nan neighbor_distances;
  q_core : Forall not_nan core_distances
}.

(** A tree in which every node above the root is the child of at most one
    record, and that record has a smaller parent, not below the root. *)
Definition tree_wf (tree : list tree_row) (tree_root : Z) : Prop :=
  (forall r, In r tree -> tree_root < child r ->
             tree_root <= parent r < child r) /\
  (forall c, tree_root < c -> (length (rows_with_child tree c) <= 1)%nat).

(** [a] and [b] differ by no more than [tolerance]. *)
Definition within_tolerance (a b tolerance : float) : bool :=
  (abs (a - b) <=? tolerance)%float.

(** The probability lies between zero and one. *)
Definition in_unit_interval (p : float) : bool :=
  ((0 <=? p) && (p <=? 1))%float.

(** ** A space tree by exhaustive search

    The space tree of scikit-learn is outside the source.  For the examples
    it is replaced by a search through all the fitted points, for data of
    one feature: the [k] nearest points in ascending order of distance, the
    earlier point first among equals. *)

Definition line_distance (x p : list float) : float :=
  match x, p with
  | [a], [b] => abs (a - b)
  | _, _ => nan
  end.

Fixpoint insert_neighbor (e : float * Z) (l : list (float * Z)) : list (float * Z) :=
  match l with
  | [] => [e]
  | h :: t => if (h.1 <? e.1)%float then h :: insert_neighbor e t else e :: l
  end.

Definition nearest (data : list (list float)) (k : Z) (x : list float) : list (float * Z) :=
  firstn (Z.to_nat k)
    (foldr insert_neighbor [] (imap (fun i p => (line_distance x p, Z.of_nat i)) data)).

Definition exhaustive_query (data : list (list float)) (pts : list (list float)) (k : Z)
    : result (list (list float) * list (list Z)) :=
  if Z.of_nat (length data) <? k then
    Raise (ValueError "k must be less than or equal to the number of training points")
  else
    Ok (map (fun x => map fst (nearest data k x)) pts,
        map (fun x => map snd (nearest data k x)) pts).

(** ** A small clustering

    Six points on a line, at 0, 0, 0, 4, 4.5 and 5.5, clustered with
    [min_samples = 2] and [min_cluster_size = 3].  The root 6 splits at
    distance 4 into the clusters 7 (the three coinciding points) and 8 (the
    other three), both selected.  The coinciding points part at distance
    zero, so their records carry an infinite lambda. *)

Definition example_data : list (list float) :=
  [[0]; [0]; [0]; [4]; [4.5]; [5.5]]%float.

Definition example_tree : list tree_row :=
  [ TreeRow 6 7 0.25 3; TreeRow 6 8 0.25 3;
    TreeRow 7 0 infinity 1; TreeRow 7 1 infinity 1; TreeRow 7 2 infinity 1;
    TreeRow 8 3 1 1; TreeRow 8 4 1 1; TreeRow 8 5 1 1 ]%float.

Definition example_cluster_tree : list tree_row :=
  List.filter (fun r => 1 <? child_size r) example_tree.

Definition example_cluster_map : gmap Z Z := <[7 := 0]> (<[8 := 1]> ∅).

Definition example_max_lambdas : gmap Z float :=
  <[7 := infinity]> (<[8 := 1%float]> ∅).

(** The distance of every point to its nearest other point. *)
Definition example_core_distances : list float := [0; 0; 0; 0.5; 0.5; 1]%float.

(** A query at 6, next to the cluster 8: its four nearest points. *)
Definition example_indices : list Z := [5; 4; 3; 0].
Definition example_distances : list float := [0.5; 1.5; 2; 6]%float.

(** A query at 12, far from every point. *)
Definition far_indices : list Z := [5; 4; 3; 0].
Definition far_distances : list float := [6.5; 7.5; 8; 12]%float.

(** A query at 0, the place of the three coinciding points. *)
Definition coinciding_indices : list Z := [0; 1; 2; 3].
Definition coinciding_distances : list float := [0; 0; 0; 4]%float.

(** The clusterer of the small clustering. *)
Definition example_prediction_data : PredictionData := {|
  raw_data_shape := (6, 1);
  tree_query := exhaustive_query example_data;
  core_distances := example_core_distances;
  cluster_map := example_cluster_map;
  cluster_tree := example_cluster_tree;
  max_lambdas := example_max_lambdas
|}.

Definition example_clusterer : HDBSCAN := {|
  prediction_data_ := Some example_prediction_data;
  condensed_tree_ := example_tree;
  min_samples := Some 2;
  min_cluster_size := 3
|}.

(** The same clusterer before its prediction data was generated. *)
Definition bare_clusterer : HDBSCAN := {|
  prediction_data_ := None;
  condensed_tree_ := example_tree;
  min_samples := Some 2;
  min_cluster_size := 3
|}.

(** The fitted points themselves, one point of one feature, and one point
    of two features. *)
Definition fitted_points : points := {| shape := (6, 1); rows := example_data |}.
Definition example_points : points := {| shape := (1, 1); rows := [[6%float]] |}.
Definition wide_points : points := {| shape := (1, 2); rows := [[6; 1]%float] |}.


(** ** Vocabulary of the further properties *)

(** A query of the right shape, whatever its distances are: the first four
    conditions of [query_ok]. *)
Record query_shaped (neighbor_indices : list Z) (neighbor_distances core_distances : list float)
    (min_samples : Z) : Prop := {
  s_min_samples : 0 <= min_samples;
  s_enough : min_samples + 1 <= Z.of_nat (length neighbor_distances);
  s_same_length : length neighbor_indices = length neighbor_distances;
  s_indices : Forall (fun i => 0 <= i < Z.of_nat (length core_distances)) neighbor_indices
}.

(** A spec float with the sign bit clear that is no [nan]. *)
Definition SF_distance (p : spec_float) : bool :=
  match p with
  | S754_zero false | S754_infinity false | S754_finite false _ _ => true
  | _ => false
  end.

(** The children of the nodes [nodes] in the cluster tree:
    [cluster_tree['child'][np.in1d(cluster_tree['parent'], nodes)]]. *)
Definition children_of (cluster_tree : list tree_row) (nodes : list Z) : list Z :=
  map child (List.filter (fun r => bool_decide (parent r ∈ nodes)) cluster_tree).

(** In the tree every record has a smaller parent than child, and no child
    above [top]. *)
Definition ids_increase (tree : list tree_row) (top : Z) : Prop :=
  forall r, In r tree -> parent r < child r <= top.

(** The maps that the lines 91 to 109 of the constructor give for the tree
    of the example when its root, the node 6, is the one selected cluster:
    the nodes below it share its label and the greatest lambda of its own
    records. *)
Definition merged_cluster_map : gmap Z Z := <[6 := 0]> (<[7 := 0]> (<[8 := 0]> ∅)).
Definition merged_max_lambdas : gmap Z float :=
  <[6 := 0.25%float]> (<[7 := 0.25%float]> (<[8 := 0.25%float]> ∅)).

(** What the body of the loop of lines 358 to 368 computes for the point
    [i], before the two stores of lines 369 and 370. *)
Definition point_outcome (fuel : nat) (clusterer : HDBSCAN) (pd : PredictionData)
    (neighbor_distances : list (list float)) (neighbor_indices : list (list Z))
    (min_samples : Z) (i : Z) : result (Z * float) :=
  indices_i ← np.getitem neighbor_indices i;
  distances_i ← np.getitem neighbor_distances i;
  _find_cluster_and_probability fuel (condensed_tree_ clusterer) (cluster_tree pd)
    indices_i distances_i (core_distances pd) (cluster_map pd) (max_lambdas pd)
    min_samples.

(** The points of the example clustered with [min_cluster_size = 4]: the
    two groups of three are too small to be clusters, every point leaves
    the root where the groups part, and the cluster tree of the prediction
    data is empty. *)
Definition flat_prediction_data : PredictionData := {|
  raw_data_shape := (6, 1);
  tree_query := exhaustive_query example_data;
  core_distances := example_core_distances;
  cluster_map := ∅;
  cluster_tree := [];
  max_lambdas := ∅
|}.

Definition flat_clusterer : HDBSCAN := {|
  prediction_data_ := Some flat_prediction_data;
  condensed_tree_ :=
    [ TreeRow 6 0 0.25 1; TreeRow 6 1 0.25 1; TreeRow 6 2 0.25 1;
      TreeRow 6 3 0.25 1; TreeRow 6 4 0.25 1; TreeRow 6 5 0.25 1 ]%float;
  min_samples := Some 2;
  min_cluster_size := 4
|}.

(** Two points of one feature. *)
Definition two_points : points := {| shape := (2, 1); rows := [[6]; [0]]%float |}.

(** The prediction data and the clusterer of the example with these maps. *)
Definition merged_prediction_data : PredictionData := {|
  raw_data_shape := (6, 1);
  tree_query := exhaustive_query example_data;
  core_distances := example_core_distances;
  cluster_map := merged_cluster_map;
  cluster_tree := example_cluster_tree;
  max_lambdas := merged_max_lambdas
|}.

Definition merged_clusterer : HDBSCAN := {|
  prediction_data_ := Some merged_prediction_data;
  condensed_tree_ := example_tree;
  min_samples := Some 2;
  min_cluster_size := 3
|}.

(** ** Order facts on binary64 values *)

Section float_order.

Local Open Scope float_scope.

Ltac sf_cases :=
  repeat match goal with
    | |- context [Z.compare ?a ?b] => destruct (Z.compare_spec a b)
    | |- context [Pos.compare_cont Eq ?a ?b] =>
        change (Pos.compare_cont Eq a b) with (Pos.compare a b);
        destruct (Pos.compare_spec a b)
    end; simpl; try subst; try congruence; try lia.

Ltac sf_destruct3 a b c :=
  destruct a as [[|]|[|]| |[|] ? ?], b as [[|]|[|]| |[|] ? ?],
    c as [[|]|[|]| |[|] ? ?]; simpl; try congruence; sf_cases.

Ltac sf_destruct2 a b :=
  destruct a as [[|]|[|]| |[|] ? ?], b as [[|]|[|]| |[|] ? ?];
    simpl; try congruence; sf_cases.

Lemma SFcompare_lt_le_trans (a b c : spec_float) :
  SFltb a b = true -> SFleb b c = true -> SFltb a c = true.
Proof. unfold SFltb, SFleb, SFcompare. sf_destruct3 a b c. Qed.

Lemma SFcompare_le_trans (a b c : spec_float) :
  SFleb a b = true -> SFleb b c = true -> SFleb a c = true.
Proof. unfold SFleb, SFcompare. sf_destruct3 a b c. Qed.

Lemma SFleb_total (a b : spec_float) :
  SFeqb a a = true -> SFeqb b b = true -> SFleb a b = false -> SFltb b a = true.
Proof. unfold SFeqb, SFltb, SFleb, SFcompare. sf_destruct2 a b. Qed.

Lemma SFleb_refl (a : spec_float) : SFeqb a a = true -> SFleb a a = true.
Proof. unfold SFeqb, SFleb. destruct (SFcompare a a) as [[]|]; congruence. Qed.

Lemma SFltb_leb (a b : spec_float) : SFltb a b = true -> SFleb a b = true.
Proof. unfold SFltb, SFleb. destruct (SFcompare a b) as [[]|]; congruence. Qed.

Lemma SFltb_not_leb (a b : spec_float) : SFltb a b = true -> SFleb b a = false.
Proof. unfold SFltb, SFleb, SFcompare. sf_destruct2 a b. Qed.

Lemma SFltb_not_eqb (a b : spec_float) : SFltb a b = true -> SFeqb b a = false.
Proof. unfold SFltb, SFeqb, SFcompare. sf_destruct2 a b. Qed.

Lemma SFleb_eqb_trans (a b c : spec_float) :
  SFleb a b = true -> SFeqb b c = true -> SFleb a c = true.
Proof. unfold SFleb, SFeqb, SFcompare. sf_destruct3 a b c. Qed.

Lemma is_nan_spec (x : float) : is_nan x = negb (SFeqb (Prim2SF x) (Prim2SF x)).
Proof. unfold is_nan. now rewrite FloatAxioms.eqb_spec. Qed.

Lemma not_nan_SFeqb (x : float) : not_nan x -> SFeqb (Prim2SF x) (Prim2SF x) = true.
Proof. unfold not_nan. rewrite is_nan_spec. now destruct (SFeqb _ _). Qed.

Lemma ltb_leb_trans (a b c : float) :
  (a <? b) = true -> (b <=? c) = true -> (a <? c) = true.
Proof. rewrite !FloatAxioms.ltb_spec, FloatAxioms.leb_spec. apply SFcompare_lt_le_trans. Qed.

Lemma leb_trans (a b c : float) :
  (a <=? b) = true -> (b <=? c) = true -> (a <=? c) = true.
Proof. rewrite !FloatAxioms.leb_spec. apply SFcompare_le_trans. Qed.

Lemma leb_total (a b : float) :
  not_nan a -> not_nan b -> (a <=? b) = false -> (b <? a) = true.
Proof.
  intros Ha Hb. rewrite FloatAxioms.leb_spec, FloatAxioms.ltb_spec.
  apply SFleb_total; now apply not_nan_SFeqb.
Qed.

Lemma leb_refl (a : float) : not_nan a -> (a <=? a) = true.
Proof. intros Ha. rewrite FloatAxioms.leb_spec. now apply SFleb_refl, not_nan_SFeqb. Qed.

Lemma ltb_leb (a b : float) : (a <? b) = true -> (a <=? b) = true.
Proof. rewrite FloatAxioms.ltb_spec, FloatAxioms.leb_spec. apply SFltb_leb. Qed.

Lemma ltb_not_leb (a b : float) : (a <? b) = true -> (b <=? a) = false.
Proof. rewrite FloatAxioms.ltb_spec, FloatAxioms.leb_spec. apply SFltb_not_leb. Qed.

Lemma ltb_not_eqb (a b : float) : (a <? b) = true -> (b =? a) = false.
Proof. rewrite FloatAxioms.ltb_spec, FloatAxioms.eqb_spec. apply SFltb_not_eqb. Qed.

End float_order.

(** Multiplying by one changes no float. *)
Lemma digits2_pos_shift52 (m : positive) :
  Z.pos (digits2_pos (m * 4503599627370496)) = Z.pos (digits2_pos m) + 52.
Proof.
  rewrite Pos.mul_comm. cbv [Pos.mul digits2_pos]. fold digits2_pos. lia.
Qed.

Lemma SFmul_one (p : spec_float) :
  valid_binary p = true ->
  SF64mul p (S754_finite false 4503599627370496 (-52)) = p.
Proof.
  destruct p as [s | s | | s m e]; intros Hv;
    [now destruct s | now destruct s | reflexivity |].
  unfold SF64mul, SFmul. replace (xorb s false) with s by now destruct s.
  unfold valid_binary, bounded, canonical_mantissa in Hv.
  apply andb_prop in Hv as [Hc Hb]. apply Z.eqb_eq in Hc.
  unfold binary_round_aux, shr_fexp.
  unfold Zdigits2. rewrite digits2_pos_shift52.
  replace (Z.pos (digits2_pos m) + 52 + (e + -52))%Z
    with (Z.pos (digits2_pos m) + e)%Z by lia.
  rewrite Hc.
  replace (e - (e + -52))%Z with 52%Z by lia.
  cbn [shr shr_record_of_loc].
  rewrite Pos.mul_comm. cbv [Pos.mul SpecFloat.iter_pos shr_1 orb].
  cbn [shr_m loc_of_shr_record round_nearest_even].
  replace (e + -52 + 52)%Z with e by lia.
  cbn [Zdigits2]. rewrite Hc, Z.sub_diag. cbn [shr shr_record_of_loc shr_m].
  now rewrite Hb.
Qed.

Lemma float_mul_one (x : float) : (x * 1)%float = x.
Proof.
  apply Prim2SF_inj. rewrite mul_spec.
  change (Prim2SF 1) with (S754_finite false 4503599627370496 (-52)).
  apply SFmul_one, Prim2SF_valid.
Qed.

(** The product with [np.ones] is the broadcast of the scalar. *)
Lemma point_core_distances_broadcast (idx : list Z) (dist : list float) (ms : Z) :
  point_core_distances idx dist ms
    = (d ← np.getitem dist ms; Ok (replicate (length idx) d)).
Proof.
  unfold point_core_distances, np.ones.
  destruct (np.getitem dist ms) as [d |]; simpl; [| reflexivity].
  f_equal. induction (length idx) as [| n IH]; simpl; [reflexivity |].
  now rewrite float_mul_one, IH.
Qed.

Lemma maximum_cases (a b : float) : np.maximum a b = a \/ np.maximum a b = b.
Proof. unfold np.maximum. destruct (_ || _); auto. Qed.

Lemma maximum_not_nan (a b : float) :
  not_nan a -> not_nan b -> not_nan (np.maximum a b).
Proof. intros Ha Hb. destruct (maximum_cases a b) as [-> | ->]; assumption. Qed.

Lemma maximum_upper (a b : float) :
  not_nan a -> not_nan b ->
  (a <=? np.maximum a b)%float = true /\ (b <=? np.maximum a b)%float = true.
Proof.
  intros Ha Hb. unfold np.maximum. rewrite Ha, orb_false_r.
  destruct (b <=? a)%float eqn:E.
  - split; [now apply leb_refl | assumption].
  - split; [now apply ltb_leb, leb_total | now apply leb_refl].
Qed.

Lemma maximum3_is_max (c p d : float) :
  not_nan c -> not_nan p -> not_nan d ->
  is_max_of3 (np.maximum (np.maximum c p) d) c p d.
Proof.
  intros Hc Hp Hd.
  pose proof (maximum_not_nan c p Hc Hp) as Hcp.
  destruct (maximum_upper c p Hc Hp) as [H1 H2].
  destruct (maximum_upper _ d Hcp Hd) as [H3 H4].
  split; [| repeat split; eauto using leb_trans].
  destruct (maximum_cases (np.maximum c p) d) as [-> | ->]; auto.
  destruct (maximum_cases c p) as [-> | ->]; auto.
Qed.

(** ** Reading arrays *)

Lemma getitem_in_range {A : Type} (a : list A) (i : Z) :
  0 <= i < Z.of_nat (length a) ->
  exists x, a !! Z.to_nat i = Some x /\ np.getitem a i = Ok x.
Proof.
  intros H. unfold np.getitem.
  destruct (Z.ltb_spec i 0); [lia |].
  destruct (Z.leb_spec 0 i); [| lia].
  destruct (Z.ltb_spec i (Z.of_nat (length a))); [| lia]. simpl.
  destruct (a !! Z.to_nat i) eqn:E; [eauto |].
  apply lookup_ge_None in E. lia.
Qed.

Lemma getitem_nat {A : Type} (a : list A) (k : nat) (x : A) :
  a !! k = Some x -> np.getitem a (Z.of_nat k) = Ok x.
Proof.
  intros H. pose proof (lookup_lt_Some _ _ _ H) as Hk.
  destruct (getitem_in_range a (Z.of_nat k)) as (y & Hy & ->); [lia |].
  rewrite Nat2Z.id in Hy. congruence.
Qed.

Lemma getitem_beyond {A : Type} (a : list A) (i : Z) :
  Z.of_nat (length a) <= i -> np.getitem a i = Raise IndexError.
Proof.
  intros H. unfold np.getitem.
  destruct (Z.ltb_spec i 0); [lia |].
  destruct (Z.ltb_spec i (Z.of_nat (length a))); [lia |].
  now rewrite andb_false_r.
Qed.

Lemma getitem_raises {A : Type} (a : list A) (i : Z) (e : exn) :
  np.getitem a i = Raise e -> e = IndexError.
Proof.
  unfold np.getitem. destruct (_ && _); [| congruence].
  destruct (a !! _); congruence.
Qed.

Lemma take_raises {A : Type} (a : list A) (idx : list Z) (e : exn) :
  np.take a idx = Raise e -> e = IndexError.
Proof.
  unfold np.take. induction idx as [| i idx IH]; simpl; [congruence |].
  destruct (np.getitem a i) eqn:E; simpl.
  - destruct (traverse (np.getitem a) idx); simpl; [congruence |].
    intros [= <-]. now apply IH.
  - intros [= <-]. eapply getitem_raises, E.
Qed.

Lemma take_in_range {A : Type} (a : list A) (idx : list Z) :
  Forall (fun i => 0 <= i < Z.of_nat (length a)) idx ->
  exists xs, np.take a idx = Ok xs /\
             Forall2 (fun i x => a !! Z.to_nat i = Some x) idx xs.
Proof.
  unfold np.take. induction 1 as [| i idx Hi _ IH]; simpl.
  - exists []. split; [reflexivity | constructor].
  - destruct (getitem_in_range a i Hi) as (x & Hx & ->).
    destruct IH as (xs & -> & Hxs). simpl.
    exists (x :: xs). split; [reflexivity | now constructor].
Qed.

(** ** What [argmin] returns *)

Lemma argmin_scan_first_min (l pre : list float) (mp : float) (ind : nat) :
  Forall not_nan pre -> Forall not_nan l -> first_min pre ind mp ->
  exists m, first_min (pre ++ l) (np.argmin_scan mp ind (length pre) l) m.
Proof.
  revert pre mp ind.
  induction l as [| x l IH]; intros pre mp ind Hpre Hl (Hat & Hle & Hlt).
  - rewrite app_nil_r. exists mp. repeat split; assumption.
  - apply Forall_cons in Hl as [Hx Hl]. simpl.
    assert (Hmp : not_nan mp).
    { eapply Forall_forall in Hpre; [exact Hpre |].
      eapply list_elem_of_lookup_2, Hat. }
    assert (Hpre' : Forall not_nan (pre ++ [x])).
    { apply Forall_app. split; [assumption | now constructor]. }
    replace (pre ++ x :: l) with ((pre ++ [x]) ++ l)
      by now rewrite <- app_assoc.
    replace (S (length pre)) with (length (pre ++ [x]))
      by (rewrite length_app; simpl; lia).
    destruct (mp <=? x)%float eqn:E; simpl.
    + apply IH; [assumption | assumption |]. repeat split.
      * apply lookup_app_l_Some, Hat.
      * intros j y Hj. apply lookup_snoc_Some in Hj as [[_ Hj] | [_ <-]]; eauto.
      * intros j y Hjk Hj.
        apply lookup_snoc_Some in Hj as [[_ Hj] | [Hj' <-]]; [eauto |].
        apply lookup_lt_Some in Hat. lia.
    + pose proof (leb_total mp x Hmp Hx E) as Hxmp.
      rewrite Hx.
      apply IH; [assumption | assumption |]. repeat split.
      * apply lookup_snoc_Some. right. split; reflexivity.
      * intros j y Hj. apply lookup_snoc_Some in Hj as [[_ Hj] | [_ <-]].
        -- eapply ltb_leb, ltb_leb_trans; eauto.
        -- now apply leb_refl.
      * intros j y Hjk Hj.
        apply lookup_snoc_Some in Hj as [[_ Hj] | [Hj' <-]]; [| lia].
        eapply ltb_leb_trans; eauto.
Qed.

Lemma argmin_first_min (a : list float) :
  a <> [] -> Forall not_nan a ->
  exists k m, np.argmin a = Ok k /\ first_min a k m.
Proof.
  destruct a as [| x l]; [congruence |]. intros _ Ha.
  apply Forall_cons in Ha as [Hx Hl]. simpl. rewrite Hx.
  destruct (argmin_scan_first_min l [x] x 0%nat) as (m & Hm).
  - now constructor.
  - assumption.
  - repeat split.
    + intros [| j] y; simpl; [intros [= <-]; now apply leb_refl |].
      now rewrite lookup_nil.
    + intros j y Hj. lia.
  - simpl in Hm. eauto.
Qed.

(** ** The resolver on a well formed query *)

Lemma mr_distances_query_ok (idx : list Z) (dist core : list float) (ms : Z) :
  query_ok idx dist core ms ->
  exists pseudo mr,
    dist !! Z.to_nat ms = Some pseudo /\
    mr_distances idx dist core ms = Ok mr /\
    length mr = length idx /\
    Forall not_nan mr /\
    (forall j i d, idx !! j = Some i -> dist !! j = Some d ->
       exists c, core !! Z.to_nat i = Some c /\
                 mr !! j = Some (np.maximum (np.maximum c pseudo) d)).
Proof.
  intros [Hms Hn Hlen Hidx Hd Hc].
  destruct (getitem_in_range dist ms) as (pseudo & Hp & Hget); [lia |].
  destruct (take_in_range core idx Hidx) as (cs & Htake & Hcs).
  pose proof (Forall2_length _ _ _ Hcs) as Hlcs.
  exists pseudo, (zip_with np.maximum
                    (zip_with np.maximum cs (replicate (length idx) pseudo)) dist).
  assert (Hpn : not_nan pseudo).
  { eapply Forall_forall in Hd; [exact Hd |]. eapply list_elem_of_lookup_2, Hp. }
  split; [assumption |]. split.
  { unfold mr_distances. rewrite point_core_distances_broadcast, Htake. simpl.
    rewrite Hget. simpl. unfold np.vstack3_max.
    rewrite length_replicate, <- Hlcs, Hlen, !Nat.eqb_refl. reflexivity. }
  split.
  { rewrite !length_zip_with, length_replicate. lia. }
  split.
  { apply Forall_forall. intros v Hv.
    apply list_elem_of_lookup in Hv as [j Hj].
    apply lookup_zip_with_Some in Hj as (u & d & -> & Hu & Hdj).
    apply lookup_zip_with_Some in Hu as (c & p & -> & Hcj & Hpj).
    apply lookup_replicate in Hpj as [-> _].
    destruct (Forall2_lookup_r _ _ _ _ _ Hcs Hcj) as (i & _ & Hci).
    repeat apply maximum_not_nan; try assumption.
    - eapply Forall_forall in Hc; [exact Hc |]. eapply list_elem_of_lookup_2, Hci.
    - eapply Forall_forall in Hd; [exact Hd |]. eapply list_elem_of_lookup_2, Hdj. }
  intros j i d Hi Hdj.
  destruct (Forall2_lookup_l _ _ _ _ _ Hcs Hi) as (c & Hcj & Hci).
  exists c. split; [assumption |].
  apply lookup_zip_with_Some. exists (np.maximum c pseudo), d.
  split; [reflexivity |]. split; [| assumption].
  apply lookup_zip_with_Some. exists c, pseudo.
  split; [reflexivity |]. split; [assumption |].
  apply lookup_replicate. split; [reflexivity |]. eapply lookup_lt_Some, Hi.
Qed.

Lemma resolver_query_ok (idx : list Z) (dist core : list float) (ms : Z) :
  query_ok idx dist core ms ->
  exists mr k nb m,
    mr_distances idx dist core ms = Ok mr /\
    np.argmin mr = Ok k /\
    first_min mr k m /\
    idx !! k = Some nb /\
    _find_neighbor_and_lambda idx dist core ms = Ok (nb, (1 / m)%float).
Proof.
  intros Hq.
  destruct (mr_distances_query_ok _ _ _ _ Hq) as (pseudo & mr & Hp & Hmr & Hlen & Hnn & _).
  destruct (argmin_first_min mr) as (k & m & Hk & Hfm); [| assumption |].
  { intros ->. simpl in Hlen. destruct Hq as [? ? Hl _ _ _].
    rewrite <- Hl, <- Hlen in *. simpl in *. lia. }
  pose proof Hfm as (Hat & _ & _).
  destruct (lookup_lt_is_Some_2 idx k) as [nb Hnb].
  { rewrite <- Hlen. eapply lookup_lt_Some, Hat. }
  exists mr, k, nb, m. repeat split; try assumption; try apply Hfm.
  unfold _find_neighbor_and_lambda. rewrite Hmr. simpl. rewrite Hk. simpl.
  rewrite (getitem_nat _ _ _ Hnb). simpl. now rewrite (getitem_nat _ _ _ Hat).
Qed.

(** * The small clustering

    The parts of the example agree with one another and with the lines of
    the constructor that compute them. *)

Example example_core_distances_by_query :
  (ds ← exhaustive_query example_data example_data 2;
   traverse (fun row => np.getitem row (-1)) ds.1) = Ok example_core_distances.
Proof. vm_compute. reflexivity. Qed.

Example example_cluster_map_by_zip :
  dict_zip [7; 8] (range 2) = example_cluster_map.
Proof. vm_compute. reflexivity. Qed.

Example example_max_lambdas_by_max :
  np.max (map lambda_val (List.filter (fun r => parent r =? 7) example_tree))
    = Ok infinity /\
  np.max (map lambda_val (List.filter (fun r => parent r =? 8) example_tree))
    = Ok 1%float.
Proof. split; vm_compute; reflexivity. Qed.

Example example_queries_by_search :
  exhaustive_query example_data [[6]; [12]; [0]]%float 4
    = Ok ([example_distances; far_distances; coinciding_distances],
          [example_indices; far_indices; coinciding_indices]).
Proof. vm_compute. reflexivity. Qed.

(** ** Distances *)

Lemma is_distance_not_nan (x : float) : is_distance x = true -> not_nan x.
Proof.
  unfold is_distance, not_nan. rewrite classify_spec, is_nan_spec.
  destruct (Prim2SF x) as [[|]|[|]| |[|] m e]; simpl; try discriminate;
    try reflexivity; intros _; unfold SFeqb, SFcompare;
    now rewrite Z.compare_refl, Pos.compare_cont_refl.
Qed.

(** A distance that is not above a zero is the positive zero itself. *)
Lemma distance_below_zero (m x : float) :
  is_distance m = true -> (m <=? x)%float = true -> (x =? 0)%float = true ->
  m = 0%float.
Proof.
  intros Hm Hle Hx.
  rewrite FloatAxioms.leb_spec in Hle. rewrite FloatAxioms.eqb_spec in Hx.
  pose proof (SFleb_eqb_trans _ _ _ Hle Hx) as H0.
  apply Prim2SF_inj.
  unfold is_distance in Hm. rewrite classify_spec in Hm.
  change (Prim2SF 0) with (S754_zero false) in *.
  destruct (Prim2SF m) as [[|]|[|]| |[|] mm e]; simpl in *;
    try discriminate; try reflexivity.
  match type of Hm with context [if ?c then _ else _] => destruct c end;
    discriminate.
Qed.

Lemma mr_distances_are_distances (idx : list Z) (dist core mr : list float) (ms : Z) :
  Forall (fun x => is_distance x = true) dist ->
  Forall (fun x => is_distance x = true) core ->
  mr_distances idx dist core ms = Ok mr ->
  Forall (fun x => is_distance x = true) mr.
Proof.
  intros Hd Hc. unfold mr_distances. rewrite point_core_distances_broadcast.
  destruct (np.take core idx) as [cs |] eqn:Et; simpl; [| discriminate].
  destruct (np.getitem dist ms) as [p |] eqn:Ep; simpl; [| discriminate].
  unfold np.vstack3_max. destruct (_ && _); [| discriminate]. intros [= <-].
  assert (Hp : is_distance p = true).
  { unfold np.getitem in Ep. destruct (_ && _); [| discriminate].
    destruct (dist !! _) as [y |] eqn:Ey; [| discriminate].
    injection Ep as <-. eapply Forall_forall in Hd; [exact Hd |].
    eapply list_elem_of_lookup_2, Ey. }
  assert (Hcs : Forall (fun x => is_distance x = true) cs).
  { clear -Et Hc. revert cs Et. unfold np.take.
    induction idx as [| i idx IH]; simpl; intros cs.
    - intros [= <-]. constructor.
    - destruct (np.getitem core i) as [c |] eqn:Ei; simpl; [| discriminate].
      destruct (traverse _ idx) as [cs' |]; simpl; [| discriminate].
      intros [= <-]. constructor; [| now apply IH].
      unfold np.getitem in Ei. destruct (_ && _); [| discriminate].
      destruct (core !! _) as [y |] eqn:Ey; [| discriminate].
      injection Ei as <-. eapply Forall_forall in Hc; [exact Hc |].
      eapply list_elem_of_lookup_2, Ey. }
  apply Forall_forall. intros v Hv.
  apply list_elem_of_lookup in Hv as [j Hj].
  apply lookup_zip_with_Some in Hj as (u & d & -> & Hu & Hdj).
  apply lookup_zip_with_Some in Hu as (c & q & -> & Hcj & Hqj).
  apply lookup_replicate in Hqj as [-> _].
  assert (Hcd : is_distance c = true).
  { eapply Forall_forall in Hcs; [exact Hcs |]. eapply list_elem_of_lookup_2, Hcj. }
  assert (Hdd : is_distance d = true).
  { eapply Forall_forall in Hd; [exact Hd |]. eapply list_elem_of_lookup_2, Hdj. }
  destruct (maximum_cases (np.maximum c p) d) as [-> | ->]; [| assumption].
  destruct (maximum_cases c p) as [-> | ->]; assumption.
Qed.

(** * The claims on the resolver *)

(** C3. On a well formed query with at least [min_samples + 1] candidates
    the resolver takes the raw distance at position [min_samples] as the
    pseudo core distance, gives every candidate the greatest of its core
    distance, the pseudo core distance and its raw distance, returns the
    original index of a candidate at which that value is least, and returns
    the reciprocal of that least value as lambda. *)
Theorem resolver_computation (idx : list Z) (dist core : list float) (ms : Z) :
  query_ok idx dist core ms ->
  exists (pseudo : float) (mr : list float) (k : nat) (nb : Z) (m : float),
    dist !! Z.to_nat ms = Some pseudo /\
    length mr = length idx /\
    (forall j i d, idx !! j = Some i -> dist !! j = Some d ->
       exists c v, core !! Z.to_nat i = Some c /\ mr !! j = Some v /\
                   is_max_of3 v c pseudo d) /\
    idx !! k = Some nb /\
    mr !! k = Some m /\
    (forall j x, mr !! j = Some x -> (m <=? x)%float = true) /\
    _find_neighbor_and_lambda idx dist core ms = Ok (nb, (1 / m)%float).
Proof.
  intros Hq.
  destruct (mr_distances_query_ok _ _ _ _ Hq) as (pseudo & mr & Hp & Hmr & Hlen & _ & Hat).
  destruct (resolver_query_ok _ _ _ _ Hq) as (mr' & k & nb & m & Hmr' & _ & Hfm & Hnb & Hres).
  assert (mr' = mr) as -> by congruence.
  destruct Hfm as (Hk & Hle & _).
  exists pseudo, mr, k, nb, m. repeat split; try assumption.
  intros j i d Hi Hd. destruct (Hat j i d Hi Hd) as (c & Hc & Hv).
  exists c, (np.maximum (np.maximum c pseudo) d).
  split; [assumption |]. split; [assumption |].
  destruct Hq as [_ _ _ _ Hdn Hcn].
  apply maximum3_is_max.
  - eapply Forall_forall in Hcn; [exact Hcn |]. eapply list_elem_of_lookup_2, Hc.
  - eapply Forall_forall in Hdn; [exact Hdn |]. eapply list_elem_of_lookup_2, Hp.
  - eapply Forall_forall in Hdn; [exact Hdn |]. eapply list_elem_of_lookup_2, Hd.
Qed.

(** C7. When several candidates have the least mutual reachability
    distance, the resolver returns the one that comes first in the input:
    every candidate that ties with the chosen one stands at the same or a
    later position, and, the input being in ascending order of raw
    distance, has no smaller raw distance. *)
Theorem resolver_tie_break (idx : list Z) (dist core : list float) (ms : Z) :
  query_ok idx dist core ms ->
  exists (mr : list float) (k : nat) (nb : Z) (m : float),
    mr_distances idx dist core ms = Ok mr /\
    idx !! k = Some nb /\
    mr !! k = Some m /\
    _find_neighbor_and_lambda idx dist core ms = Ok (nb, (1 / m)%float) /\
    (forall j x, mr !! j = Some x -> (m <=? x)%float = true) /\
    (forall j x, mr !! j = Some x -> (x =? m)%float = true -> (k <= j)%nat) /\
    (sorted_ascending dist ->
     forall j x dj dk, mr !! j = Some x -> (x =? m)%float = true ->
       dist !! j = Some dj -> dist !! k = Some dk -> (dk <=? dj)%float = true).
Proof.
  intros Hq.
  destruct (resolver_query_ok _ _ _ _ Hq) as (mr & k & nb & m & Hmr & _ & Hfm & Hnb & Hres).
  destruct Hfm as (Hk & Hle & Hlt).
  assert (Hfirst : forall j x, mr !! j = Some x -> (x =? m)%float = true -> (k <= j)%nat).
  { intros j x Hj Hx. destruct (le_lt_dec k j) as [| Hjk]; [assumption |].
    pose proof (ltb_not_eqb _ _ (Hlt j x Hjk Hj)). congruence. }
  exists mr, k, nb, m. repeat split; try assumption.
  intros Hsorted j x dj dk Hj Hx Hdj Hdk.
  eapply Hsorted; [eapply Hfirst | |]; eassumption.
Qed.

(** C8. With fewer than [min_samples + 1] candidate distances the resolver
    returns nothing: the pseudo core distance cannot be read and the
    resolver raises [IndexError], the error of NumPy for an array that is
    too short for the position asked for. *)
Theorem resolver_too_few_candidates (idx : list Z) (dist core : list float) (ms : Z) :
  Z.of_nat (length dist) < ms + 1 ->
  _find_neighbor_and_lambda idx dist core ms = Raise IndexError.
Proof.
  intros H. unfold _find_neighbor_and_lambda, mr_distances.
  destruct (np.take core idx) as [cs | e] eqn:Et; simpl.
  - rewrite point_core_distances_broadcast, getitem_beyond by lia. reflexivity.
  - now rewrite (take_raises _ _ _ Et).
Qed.

(** C10. When a candidate of a well formed query, with distances that are
    zero or positive, has a mutual reachability distance equal to zero, so
    that the least such distance is zero, the resolver raises nothing: it
    returns the positive infinity as lambda. *)
Theorem resolver_zero_distance (idx : list Z) (dist core mr : list float) (ms : Z)
    (j : nat) (x : float) :
  query_ok idx dist core ms ->
  Forall (fun d => is_distance d = true) dist ->
  Forall (fun d => is_distance d = true) core ->
  mr_distances idx dist core ms = Ok mr ->
  mr !! j = Some x ->
  (x =? 0)%float = true ->
  exists nb, _find_neighbor_and_lambda idx dist core ms = Ok (nb, infinity).
Proof.
  intros Hq Hd Hc Hmr Hj Hx.
  destruct (resolver_query_ok _ _ _ _ Hq) as (mr' & k & nb & m & Hmr' & _ & Hfm & _ & Hres).
  assert (mr' = mr) as -> by congruence.
  destruct Hfm as (Hk & Hle & _).
  pose proof (mr_distances_are_distances _ _ _ _ _ Hd Hc Hmr) as Hall.
  assert (Hm : is_distance m = true).
  { eapply Forall_forall in Hall; [exact Hall |]. eapply list_elem_of_lookup_2, Hk. }
  rewrite (distance_below_zero m x Hm (Hle j x Hj) Hx) in Hres.
  exists nb. exact Hres.
Qed.

Lemma resolver_computation_witness :
  query_ok example_indices example_distances example_core_distances 2 /\
  exists (pseudo : float) (mr : list float) (k : nat) (nb : Z) (m : float),
    example_distances !! Z.to_nat 2 = Some pseudo /\
    length mr = length example_indices /\
    (forall j i d, example_indices !! j = Some i -> example_distances !! j = Some d ->
       exists c v, example_core_distances !! Z.to_nat i = Some c /\ mr !! j = Some v /\
                   is_max_of3 v c pseudo d) /\
    example_indices !! k = Some nb /\
    mr !! k = Some m /\
    (forall j x, mr !! j = Some x -> (m <=? x)%float = true) /\
    _find_neighbor_and_lambda example_indices example_distances example_core_distances 2
      = Ok (nb, (1 / m)%float).
Proof.
  assert (H : query_ok example_indices example_distances example_core_distances 2).
  { split; [lia | simpl; lia | reflexivity | repeat constructor; simpl; lia
           | repeat constructor | repeat constructor]. }
  split; [exact H | exact (resolver_computation _ _ _ _ H)].
Defined.

Lemma resolver_tie_break_witness :
  exists (mr : list float) (k : nat) (nb : Z) (m : float),
    mr_distances example_indices example_distances example_core_distances 2 = Ok mr /\
    example_indices !! k = Some nb /\
    mr !! k = Some m /\
    _find_neighbor_and_lambda example_indices example_distances example_core_distances 2
      = Ok (nb, (1 / m)%float) /\
    (forall j x, mr !! j = Some x -> (m <=? x)%float = true) /\
    (forall j x, mr !! j = Some x -> (x =? m)%float = true -> (k <= j)%nat) /\
    (sorted_ascending example_distances ->
     forall j x dj dk, mr !! j = Some x -> (x =? m)%float = true ->
       example_distances !! j = Some dj -> example_distances !! k = Some dk ->
       (dk <=? dj)%float = true).
Proof.
  apply (resolver_tie_break example_indices example_distances example_core_distances 2).
  split; [lia | simpl; lia | reflexivity | repeat constructor; simpl; lia
         | repeat constructor | repeat constructor].
Defined.

Lemma resolver_too_few_candidates_witness :
  _find_neighbor_and_lambda example_indices example_distances example_core_distances 5
    = Raise IndexError.
Proof.
  apply (resolver_too_few_candidates example_indices example_distances
           example_core_distances 5).
  simpl. lia.
Defined.

Lemma resolver_zero_distance_witness :
  exists nb,
    _find_neighbor_and_lambda coinciding_indices coinciding_distances
      example_core_distances 2 = Ok (nb, infinity).
Proof.
  apply (resolver_zero_distance coinciding_indices coinciding_distances
           example_core_distances [0; 0; 0; 4]%float 2 0%nat 0%float).
  - split; [lia | simpl; lia | reflexivity | repeat constructor; simpl; lia
           | repeat constructor | repeat constructor].
  - repeat constructor.
  - repeat constructor.
  - reflexivity.
  - reflexivity.
  - reflexivity.
Defined.

(** * The walk up the tree and the new record *)

(** The node at which the walk ends fails the test of the loop: it is not
    above the root, or no record has it as child, or the lambda of its
    record is not at or above the lambda of the point. *)
Lemma ascend_stops (fuel : nat) (tree : list tree_row) (tree_root : Z) (lambda_ : float)
    (pc q : Z) :
  ascend fuel tree tree_root lambda_ pc = Ok q ->
  ascend_test tree tree_root lambda_ q = Ok false.
Proof.
  revert pc. induction fuel as [| fuel IH]; intros pc; simpl; [discriminate |].
  destruct (ascend_test tree tree_root lambda_ pc) as [[|] | e] eqn:E; simpl.
  - destruct (np.getitem _ 0) as [p |]; simpl; [apply IH | discriminate].
  - intros [= <-]. exact E.
  - discriminate.
Qed.

Lemma rows_with_child_In (tree : list tree_row) (c : Z) (r : tree_row) :
  In r (rows_with_child tree c) -> In r tree /\ child r = c.
Proof.
  unfold rows_with_child. rewrite filter_In. intros [H1 H2].
  split; [assumption | now apply Z.eqb_eq].
Qed.

(** On a well formed tree the walk ends within as many steps as the node
    lies above the root. *)
Lemma ascend_enough_fuel (tree : list tree_row) (tree_root : Z) (lambda_ : float) :
  tree_wf tree tree_root ->
  forall (fuel : nat) (pc : Z),
    (Z.to_nat (pc - tree_root) < fuel)%nat ->
    exists q, ascend fuel tree tree_root lambda_ pc = Ok q.
Proof.
  intros [Hpar Huniq]. induction fuel as [| fuel IH]; intros pc Hfuel; [lia |].
  simpl. unfold ascend_test.
  destruct (Z.ltb_spec tree_root pc) as [Hpc |]; [| simpl; eauto].
  specialize (Huniq pc Hpc).
  destruct (rows_with_child tree pc) as [| r [| r' rest]] eqn:E; simpl in *;
    [eauto | | lia].
  destruct (lambda_ <=? lambda_val r)%float; simpl; [| eauto].
  destruct (rows_with_child_In tree pc r) as [Hin Hc]; [rewrite E; now left |].
  specialize (Hpar r Hin). rewrite Hc in Hpar. specialize (Hpar Hpc).
  change (np.getitem [parent r] 0) with (Ok (parent r)). simpl.
  apply IH. lia.
Qed.

(** The tuple that lines 205 to 220 build: the node, the sentinel [-1], a
    one, and a lambda.  When the neighbour left its parent at a lambda not
    above that of the point, the node is that parent and the lambda is that
    of the neighbour; otherwise the lambda is that of the point and the
    node is where the walk from the parent ends. *)
Lemma new_tree_row_content (fuel : nat) (tree : list tree_row) (tree_root nn : Z)
    (lambda_ : float) (r : tree_row) :
  tree_wf tree tree_root ->
  get_tree_row_with_child tree nn = Ok r ->
  (Z.to_nat (parent r - tree_root) < fuel)%nat ->
  exists (p : Z) (l : float),
    new_tree_row fuel tree tree_root nn lambda_
      = Ok [SInt p; SInt (-1); SInt 1; SFloat l] /\
    ((lambda_val r <=? lambda_)%float = true -> p = parent r /\ l = lambda_val r) /\
    ((lambda_val r <=? lambda_)%float = false ->
       l = lambda_ /\
       ascend fuel tree tree_root lambda_ (parent r) = Ok p /\
       ascend_test tree tree_root lambda_ p = Ok false).
Proof.
  intros Hwf Hr Hfuel. unfold new_tree_row. rewrite Hr. simpl.
  destruct (lambda_val r <=? lambda_)%float eqn:E.
  - exists (parent r), (lambda_val r).
    split; [reflexivity |]. split; [auto | discriminate].
  - destruct (ascend_enough_fuel tree tree_root lambda_ Hwf fuel (parent r) Hfuel)
      as [q Hq].
    exists q, lambda_. rewrite Hq. simpl.
    split; [reflexivity |]. split; [discriminate |].
    intros _. split; [reflexivity |]. split; [reflexivity |].
    eapply ascend_stops, Hq.
Qed.

(** [np.append] of a tuple of numbers to a record array raises. *)
Lemma append_to_record_array (tree : list tree_row) (values : list scalar) :
  np.append (RecordArray tree) values = Raise TypeError.
Proof. reflexivity. Qed.

(** A record array concatenated with a record array of one record keeps
    the records it had, in order, before the new one. *)
Lemma concatenate_record_keeps_rows (tree : list tree_row) (r : tree_row) :
  np.concatenate (RecordArray tree) (RecordArray [r]) = Ok (RecordArray (tree ++ [r])) /\
  firstn (length tree) (tree ++ [r]) = tree.
Proof.
  split; [reflexivity |]. now rewrite firstn_app, Nat.sub_diag, firstn_all, app_nil_r.
Qed.

(** * Label and probability *)

(** What lines 282 to 298 return for the enclosing node [node] and the
    lambda of the point: the label is the entry of the cluster map, or
    [-1]; a label that is not negative comes with
    [min(max_lambda, lambda) / max_lambda] when the greatest lambda of the
    node is positive and with one otherwise; a negative label comes with
    zero. *)
Lemma label_and_probability_spec (cluster_map : gmap Z Z) (max_lambdas : gmap Z float)
    (node : Z) (lambda_ : float) (label : Z) (prob : float) :
  label_and_probability cluster_map max_lambdas node lambda_ = Ok (label, prob) ->
  label = default (-1) (cluster_map !! node) /\
  (0 <= label ->
     exists max_lambda, max_lambdas !! node = Some max_lambda /\
       ((0 <? max_lambda)%float = true ->
          prob = (py_min max_lambda lambda_ / max_lambda)%float) /\
       ((0 <? max_lambda)%float = false -> prob = 1%float)) /\
  (label < 0 -> prob = 0%float) /\
  (label = -1 \/ exists n, cluster_map !! n = Some label).
Proof.
  unfold label_and_probability.
  set (l := match cluster_map !! node with Some l => l | None => -1 end).
  assert (Hl : l = default (-1) (cluster_map !! node)) by (subst l; now destruct (_ !! _)).
  assert (Hrange : l = -1 \/ exists n, cluster_map !! n = Some l).
  { subst l. destruct (cluster_map !! node) eqn:E; eauto. }
  destruct (Z.leb_spec 0 l) as [Hpos | Hneg].
  - destruct (max_lambdas !! node) as [ml |]; [| discriminate].
    destruct (0 <? ml)%float eqn:E; intros [= <- <-];
      (split; [assumption |]); (split; [| split; [lia | assumption]]);
      intros _; exists ml; (split; [reflexivity |]);
      split; intros; congruence.
  - intros [= <- <-]. split; [assumption |]. split; [lia |].
    split; [reflexivity | assumption].
Qed.

(** The function returns exactly when the enclosing node is found and the
    step from the node to the label and probability returns. *)
Lemma find_cluster_and_probability_steps (fuel : nat) (raw_tree cluster_tree : list tree_row)
    (idx : list Z) (dist core : list float) (cluster_map : gmap Z Z)
    (max_lambdas : gmap Z float) (ms : Z) (label : Z) (prob : float) :
  _find_cluster_and_probability fuel raw_tree cluster_tree idx dist core
    cluster_map max_lambdas ms = Ok (label, prob) <->
  exists node lambda_,
    enclosing_node fuel raw_tree cluster_tree idx dist core ms = Ok (node, lambda_) /\
    label_and_probability cluster_map max_lambdas node lambda_ = Ok (label, prob).
Proof.
  unfold _find_cluster_and_probability.
  destruct (enclosing_node _ _ _ _ _ _ _) as [[node l] | e]; simpl.
  - split; [eauto |]. now intros (n & l' & [= <- <-] & H).
  - split; [discriminate |]. now intros (n & l' & [=] & _).
Qed.

(** * The claims on the tree, the label and the probability *)

(** The scenario of the spec: one selected cluster with the greatest
    lambda 2 and a point of lambda 1 inside it. *)
Example label_and_probability_half :
  label_and_probability {[5 := 0]} {[5 := 2%float]} 5 1%float = Ok (0, 0.5%float).
Proof. vm_compute. reflexivity. Qed.

(** Two runs on the small clustering: the query at 6 lands in the cluster
    8 with half of its greatest lambda, the query at 12 climbs to the root
    and is noise. *)
Example find_cluster_and_probability_near :
  _find_cluster_and_probability 8 example_tree example_cluster_tree
    example_indices example_distances example_core_distances
    example_cluster_map example_max_lambdas 2 = Ok (1, 0.5%float).
Proof. vm_compute. reflexivity. Qed.

Example find_cluster_and_probability_far :
  _find_cluster_and_probability 8 example_tree example_cluster_tree
    far_indices far_distances example_core_distances
    example_cluster_map example_max_lambdas 2 = Ok (-1, 0%float).
Proof. vm_compute. reflexivity. Qed.

(** C2. The label and the probability of a query.  The steps of the claim
    hold as [label_and_probability_spec] states them, but the bound on the
    probability fails: at the place of the three coinciding points, whose
    cluster has an infinite greatest lambda, the lambda of the query is
    infinite as well, and the function returns the label 0 with the
    quotient of two infinities, which is not a number and does not lie
    between zero and one. *)
Theorem probability_outside_unit_interval :
  exists (label : Z) (prob : float),
    _find_cluster_and_probability 8 example_tree example_cluster_tree
      coinciding_indices coinciding_distances example_core_distances
      example_cluster_map example_max_lambdas 2 = Ok (label, prob) /\
    label = 0 /\
    prob = (infinity / infinity)%float /\
    is_nan prob = true /\
    in_unit_interval prob = false.
Proof.
  exists 0, nan. repeat split; vm_compute; reflexivity.
Qed.

(** C4. The record that the extension is to append.  For the query at 6
    the neighbour is the point 5, which left the cluster 8 at lambda 1,
    above the lambda 0.5 of the query; the walk stays at the cluster 8,
    whose own record has the lambda 0.25, and the tuple built is
    [(8, -1, 1, 0.5)].  For the query at 12, of lambda 0.125, the walk
    goes on to the root 6 and the tuple is [(6, -1, 1, 0.125)].  Both are
    as the claim has them, but the call of [np.append] that is to add the
    tuple raises [TypeError], and no record is appended. *)
Theorem extend_row_built_not_appended :
  np.min (map parent example_tree) = Ok 6 /\
  _find_neighbor_and_lambda example_indices example_distances
    example_core_distances 2 = Ok (5, 0.5%float) /\
  new_tree_row 8 example_tree 6 5 0.5%float
    = Ok [SInt 8; SInt (-1); SInt 1; SFloat 0.5%float] /\
  _extend_condensed_tree 8 example_tree example_indices example_distances
    example_core_distances 2 = Raise TypeError /\
  _find_neighbor_and_lambda far_indices far_distances
    example_core_distances 2 = Ok (5, 0.125%float) /\
  new_tree_row 8 example_tree 6 5 0.125%float
    = Ok [SInt 6; SInt (-1); SInt 1; SFloat 0.125%float] /\
  _extend_condensed_tree 8 example_tree far_indices far_distances
    example_core_distances 2 = Raise TypeError.
Proof. repeat split; vm_compute; reflexivity. Qed.

(** C5. The extension is to return the records of the tree followed by
    one new record.  It returns nothing on any input: each step before the
    last can raise, and the last, [np.append] of a tuple to the record
    array, always raises. *)
Theorem extend_never_returns (fuel : nat) (tree : list tree_row) (idx : list Z)
    (dist core : list float) (ms : Z) :
  is_ok (_extend_condensed_tree fuel tree idx dist core ms) = false.
Proof.
  unfold _extend_condensed_tree.
  destruct (np.min (map parent tree)) as [root |]; simpl; [| reflexivity].
  destruct (_find_neighbor_and_lambda idx dist core ms) as [[nn l] |]; simpl;
    [| reflexivity].
  destruct (new_tree_row fuel tree root nn l) as [row |]; simpl; reflexivity.
Qed.

(** * The claim on the constructor *)

Lemma read_exemplars : read_global "exemplars" = Raise (NameError "exemplars").
Proof. vm_compute. reflexivity. Qed.

(** The slice [[:, :2]] of a record array raises. *)
Lemma getitem_two_columns_raises (a : list tree_row) :
  np.getitem_two_columns a = Raise IndexError.
Proof. reflexivity. Qed.

Section PredictionData_init_facts.

Context {data space_tree condensed : Type}.
Variable _tree_type_map : gmap string (data -> string -> result space_tree).
Variable query_distances : space_tree -> data -> Z -> result (list (list float)).
Variable tree_query_of : space_tree -> list (list float) -> Z -> result (list (list float) * list (list Z)).
Variable data_shape : data -> Z * Z.
Variable _select_clusters : condensed -> result (list Z).
Variable to_numpy : condensed -> result (list tree_row).
Variable record_max : list tree_row -> result float.

(** Were the slice accepted, lines 98 to 115 would still not finish: the
    last line reads the name [exemplars], which nothing binds. *)
Lemma init_fill_never_returns (fuel : nat) (raw_condensed_tree cluster_tree : list tree_row)
    (selected_clusters : list Z) (columns : list (list Z)) (st : init_state) :
  is_ok (init_fill record_max fuel raw_condensed_tree cluster_tree selected_clusters
           columns st) = false.
Proof.
  unfold init_fill.
  destruct (for_each (init_leaf_max_lambda record_max raw_condensed_tree) _ st)
    as [st1 |]; cbn -[read_global]; [| reflexivity].
  destruct (for_each (init_selected_cluster fuel raw_condensed_tree cluster_tree) _ st1)
    as [st2 |]; cbn -[read_global]; [| reflexivity].
  now rewrite read_exemplars.
Qed.

(** The body of the innermost loop never finishes either. *)
Lemma init_sub_cluster_never_returns (raw_condensed_tree : list tree_row)
    (cluster sub_cluster : Z) (st : init_state) :
  is_ok (init_sub_cluster raw_condensed_tree cluster st sub_cluster) = false.
Proof.
  unfold init_sub_cluster.
  destruct (dict_get (st_cluster_map st) cluster); cbn -[read_global];
    [| reflexivity].
  destruct (dict_get (st_max_lambdas st) cluster); cbn -[read_global];
    [| reflexivity].
  destruct (dict_get (st_leaf_max_lambdas st) cluster); cbn -[read_global];
    [| reflexivity].
  now rewrite read_exemplars.
Qed.

(** When the collaborators return, the constructor raises [IndexError] at
    line 98. *)
Lemma PredictionData_init_IndexError (fuel : nat) (raw_data : data)
    (condensed_tree : condensed) (ms : Z) (tree_type metric : string)
    (tree_class : data -> string -> result space_tree) (tree : space_tree)
    (distances : list (list float)) (core : list float) (selected : list Z)
    (raw : list tree_row) :
  _tree_type_map !! tree_type = Some tree_class ->
  tree_class raw_data metric = Ok tree ->
  query_distances tree raw_data ms = Ok distances ->
  traverse (fun row => np.getitem row (-1)) distances = Ok core ->
  _select_clusters condensed_tree = Ok selected ->
  to_numpy condensed_tree = Ok raw ->
  PredictionData_init _tree_type_map query_distances tree_query_of data_shape
    _select_clusters to_numpy record_max fuel raw_data condensed_tree ms tree_type metric
    = Raise IndexError.
Proof.
  intros H1 H2 H3 H4 H5 H6. unfold PredictionData_init.
  rewrite H1. simpl. rewrite H2. simpl. rewrite H3. simpl. rewrite H4. simpl.
  rewrite H5. simpl. rewrite H6. reflexivity.
Qed.

(** C6. The constructor of [PredictionData] never returns normally: on
    every input, whatever the space tree and the condensed tree answer, it
    raises an exception, at the latest at the slice [[:, :2]] of the one
    dimensional record array, and no object with the documented attributes
    comes out of it. *)
Theorem PredictionData_init_never_returns (fuel : nat) (raw_data : data)
    (condensed_tree : condensed) (ms : Z) (tree_type metric : string) :
  is_ok (PredictionData_init _tree_type_map query_distances tree_query_of data_shape
           _select_clusters to_numpy record_max fuel raw_data condensed_tree ms
           tree_type metric) = false.
Proof.
  unfold PredictionData_init.
  destruct (_tree_type_map !! tree_type) as [tree_class |]; simpl; [| reflexivity].
  destruct (tree_class raw_data metric) as [tree |]; simpl; [| reflexivity].
  destruct (query_distances tree raw_data ms) as [distances |]; simpl; [| reflexivity].
  destruct (traverse _ distances) as [core |]; simpl; [| reflexivity].
  destruct (_select_clusters condensed_tree) as [selected |]; simpl; [| reflexivity].
  destruct (to_numpy condensed_tree) as [raw |]; simpl; reflexivity.
Qed.

End PredictionData_init_facts.

(** * The claim on the batch predictor *)

(** A run of the batch predictor on the small clustering. *)
Example approximate_predict_run :
  approximate_predict 8 example_clusterer example_points
    = ([QueryTree 4; PredictPoint 0], Ok ([1], [0.5%float])).
Proof. vm_compute. reflexivity. Qed.

(** C9. The batch predictor fails fast.  Without prediction data it raises
    the [ValueError] of line 340, whatever the points are; with prediction
    data and points of another dimension than the fitted data it raises the
    [ValueError] of line 348; in both cases before it queries the space
    tree or works on any point.  Otherwise neither check raises: the tree
    is queried, and the outcome is that of the query and of the loop over
    the points. *)
Theorem approximate_predict_fail_fast (fuel : nat) (clusterer : HDBSCAN)
    (points_to_predict : points) :
  (prediction_data_ clusterer = None ->
   approximate_predict fuel clusterer points_to_predict
     = ([], Raise (ValueError no_prediction_data))) /\
  (forall pd, prediction_data_ clusterer = Some pd ->
     (shape points_to_predict).2 <> (raw_data_shape pd).2 ->
     approximate_predict fuel clusterer points_to_predict
       = ([], Raise (ValueError dimension_mismatch))) /\
  (forall pd, prediction_data_ clusterer = Some pd ->
     (shape points_to_predict).2 = (raw_data_shape pd).2 ->
     exists evs r,
       approximate_predict fuel clusterer points_to_predict
         = (QueryTree (2 * min_samples_of clusterer) :: evs, r) /\
       match tree_query pd (rows points_to_predict) (2 * min_samples_of clusterer) with
       | Raise e => evs = [] /\ r = Raise e
       | Ok (neighbor_distances, neighbor_indices) =>
           predict_loop fuel clusterer pd neighbor_distances neighbor_indices
             (min_samples_of clusterer) (range (shape points_to_predict).1) ([], [])
             = (evs, r)
       end).
Proof.
  unfold approximate_predict. repeat split.
  - now intros ->.
  - intros pd -> Hne. apply Z.eqb_neq in Hne. now rewrite Hne.
  - intros pd -> Heq. apply Z.eqb_eq in Heq. rewrite Heq. simpl.
    destruct (tree_query pd (rows points_to_predict) _) as [[nd ni] | e].
    + destruct (predict_loop fuel _ pd nd ni _ _ _) as [evs r]. eauto.
    + eauto.
Qed.

Lemma approximate_predict_fail_fast_witness :
  approximate_predict 8 bare_clusterer wide_points
    = ([], Raise (ValueError no_prediction_data)) /\
  approximate_predict 8 example_clusterer wide_points
    = ([], Raise (ValueError dimension_mismatch)) /\
  exists evs r,
    approximate_predict 8 example_clusterer example_points = (QueryTree 4 :: evs, r).
Proof.
  split; [| split].
  - apply (approximate_predict_fail_fast 8 bare_clusterer wide_points). reflexivity.
  - apply (approximate_predict_fail_fast 8 example_clusterer wide_points
             ) with (pd := example_prediction_data); [reflexivity | simpl; lia].
  - destruct (approximate_predict_fail_fast 8 example_clusterer example_points)
      as (_ & _ & H).
    destruct (H example_prediction_data eq_refl eq_refl) as (evs & r & Hrun & _).
    exists evs, r. exact Hrun.
Defined.

(** * The claim on the round trip *)

(** No number and no tolerance make [nan] close to the number. *)
Lemma nan_within_no_tolerance (original tolerance : float) :
  within_tolerance nan original tolerance = false.
Proof.
  unfold within_tolerance.
  assert (H : (nan - original)%float = nan).
  { apply Prim2SF_inj. rewrite sub_spec.
    change (Prim2SF nan) with S754_nan. reflexivity. }
  rewrite H. change (abs nan) with nan.
  rewrite FloatAxioms.leb_spec. change (Prim2SF nan) with S754_nan. reflexivity.
Qed.

(** C1. The fitted points submitted again to [approximate_predict], one by
    one with the same [min_samples], are to get their original labels and
    membership probabilities.  On the small clustering the six points get
    the labels 0, 0, 0, 1, 1, 1, but the first point, one of the three
    coinciding points, gets a probability that is not a number: whatever
    membership probability the original clustering gave to that point, the
    prediction is within no tolerance of it. *)
Theorem round_trip_fails_at_coinciding_points :
  exists (labels : list Z) (probabilities : list float) (p : float),
    (approximate_predict 8 example_clusterer fitted_points).2
      = Ok (labels, probabilities) /\
    labels = [0; 0; 0; 1; 1; 1] /\
    probabilities !! 0%nat = Some p /\
    is_nan p = true /\
    forall original tolerance : float, within_tolerance p original tolerance = false.
Proof.
  exists [0; 0; 0; 1; 1; 1],
    [nan; nan; nan; 1 / 1.5; 1; 1 / 1.5]%float, nan.
  split; [vm_compute; reflexivity |].
  split; [reflexivity |]. split; [reflexivity |]. split; [reflexivity |].
  apply nan_within_no_tolerance.
Qed.

(** * Further properties of the code *)

(** ** The further examples

    The maps of the example with the root as the one selected cluster, and
    the empty cluster tree, agree with the lines of the constructor that
    compute them. *)

Example merged_maps_by_constructor :
  dict_zip [6] (range 1) = {[6 := 0]} /\
  np.max (map lambda_val (List.filter (fun r => parent r =? 6) example_tree))
    = Ok 0.25%float /\
  _clusters_below 3 example_cluster_tree [6] [] = Ok [6; 7; 8] /\
  fold_left (fun m sub_cluster => <[sub_cluster := 0]> m) [6; 7; 8] {[6 := 0]}
    = merged_cluster_map /\
  fold_left (fun m sub_cluster => <[sub_cluster := 0.25%float]> m) [6; 7; 8]
    {[6 := 0.25%float]} = merged_max_lambdas.
Proof. repeat split; vm_compute; reflexivity. Qed.

Example flat_cluster_tree_by_filter :
  List.filter (fun r => 1 <? child_size r) (condensed_tree_ flat_clusterer)
    = cluster_tree flat_prediction_data /\
  exhaustive_query example_data (rows two_points) 4
    = Ok ([example_distances; coinciding_distances],
          [example_indices; coinciding_indices]).
Proof. split; vm_compute; reflexivity. Qed.

(** ** Quotients of distances

    Division of binary64 values, read from its specification: the sign of
    a quotient, a float divided by itself, and a quotient below one. *)

(** [is_distance] on the specification of a float. *)
Lemma is_distance_SF (x : float) : is_distance x = SF_distance (Prim2SF x).
Proof.
  unfold is_distance. rewrite classify_spec.
  destruct (Prim2SF x) as [[|]|[|]| |[|] m e]; simpl; try reflexivity;
    match goal with |- context [if ?c then _ else _] => destruct c end; reflexivity.
Qed.

(** Shifting and rounding keep a mantissa that is not negative so. *)
Lemma shr_1_nonneg (mrs : shr_record) : 0 <= shr_m mrs -> 0 <= shr_m (shr_1 mrs).
Proof. destruct mrs as [[|[p|p|]|p] r s]; simpl; lia. Qed.

Lemma iter_pos_shr_1_nonneg (n : positive) (mrs : shr_record) :
  0 <= shr_m mrs -> 0 <= shr_m (SpecFloat.iter_pos shr_1 n mrs).
Proof.
  revert mrs. induction n as [n IH | n IH |]; intros mrs H; simpl.
  - apply IH, IH, shr_1_nonneg, H.
  - apply IH, IH, H.
  - apply shr_1_nonneg, H.
Qed.

Lemma shr_fexp_nonneg (m e : Z) (l : location) :
  0 <= m -> 0 <= shr_m (shr_fexp prec emax m e l).1.
Proof.
  intros H. unfold shr_fexp, shr.
  assert (H0 : 0 <= shr_m (shr_record_of_loc m l)) by (destruct l as [|[]]; exact H).
  destruct (_ - e) as [|n|n]; simpl; [exact H0 | | exact H0].
  apply iter_pos_shr_1_nonneg, H0.
Qed.

Lemma round_nearest_even_nonneg (m : Z) (l : location) :
  0 <= m -> 0 <= round_nearest_even m l.
Proof.
  intros H. destruct l as [|[]]; simpl; try lia. destruct (Z.even m); lia.
Qed.

Lemma binary_round_aux_distance (m e : Z) (l : location) :
  0 <= m -> SF_distance (binary_round_aux prec emax false m e l) = true.
Proof.
  intros H. unfold binary_round_aux.
  pose proof (shr_fexp_nonneg m e l H) as H1.
  destruct (shr_fexp prec emax m e l) as [mrs' e'] eqn:E1. simpl in H1.
  pose proof (round_nearest_even_nonneg _ (loc_of_shr_record mrs') H1) as H2.
  pose proof (shr_fexp_nonneg _ e' loc_Exact H2) as H3.
  destruct (shr_fexp prec emax _ e' loc_Exact) as [mrs'' e''] eqn:E2. simpl in H3.
  destruct (shr_m mrs'') as [|p|p]; [reflexivity | | lia].
  destruct (e'' <=? emax - prec); reflexivity.
Qed.

Lemma SFdiv_core_nonneg (m1 : positive) (e1 : Z) (m2 : positive) (e2 : Z) :
  0 <= (SFdiv_core_binary prec emax (Z.pos m1) e1 (Z.pos m2) e2).1.1.
Proof.
  unfold SFdiv_core_binary.
  set (s := e1 - e2 - _).
  set (m' := match s with Z.pos _ => Z.shiftl (Z.pos m1) s | 0 => Z.pos m1 | Z.neg _ => 0 end).
  assert (Hm : 0 <= m').
  { subst m'. destruct s; try lia. apply Z.shiftl_nonneg. lia. }
  pose proof (Z_div_mod m' (Z.pos m2) ltac:(lia)) as Hd.
  destruct (Z.div_eucl m' (Z.pos m2)) as [q r]. simpl. nia.
Qed.

(** The quotient of two distances is a distance, unless both are zero or
    both are infinite. *)
Lemma SFdiv_distance (a b : spec_float) :
  SF_distance a = true -> SF_distance b = true ->
  SF_distance (SF64div a b) = true \/
  SF64div a b = S754_nan /\
    (a = S754_zero false /\ b = S754_zero false \/
     a = S754_infinity false /\ b = S754_infinity false).
Proof.
  destruct a as [[|]|[|]| |[|] ma ea], b as [[|]|[|]| |[|] mb eb]; simpl;
    try discriminate; intros _ _; auto.
  left. unfold SF64div, SFdiv.
  pose proof (SFdiv_core_nonneg ma ea mb eb) as H.
  destruct (SFdiv_core_binary prec emax (Z.pos ma) ea (Z.pos mb) eb) as [[mz ez] lz].
  simpl in *. now apply binary_round_aux_distance.
Qed.

(** The same for the floats themselves. *)
Lemma div_distance (a b : float) :
  is_distance a = true -> is_distance b = true ->
  is_distance (a / b) = true \/
  is_nan (a / b) = true /\ (a = 0%float /\ b = 0%float \/ a = infinity /\ b = infinity).
Proof.
  rewrite !is_distance_SF, div_spec. intros Ha Hb.
  destruct (SFdiv_distance _ _ Ha Hb) as [H | [Hn Hc]]; [now left |].
  right. split.
  - rewrite is_nan_spec, div_spec, Hn. reflexivity.
  - destruct Hc as [[H1 H2] | [H1 H2]]; [left | right]; split;
      apply Prim2SF_inj; assumption.
Qed.

(** The reciprocal of a distance is zero, positive or infinite. *)
Lemma one_over_distance (m : float) :
  is_distance m = true -> is_distance (1 / m) = true.
Proof.
  intros Hm. destruct (div_distance 1 m eq_refl Hm) as [H | [_ [[H _] | [H _]]]];
    [exact H | discriminate H | ].
  exfalso. apply (f_equal Prim2SF) in H. vm_compute in H. discriminate.
Qed.

(** A finite float divided by itself, on the specification. *)
Lemma SFdiv_self (s : bool) (m : positive) (e : Z) :
  SF64div (S754_finite s m e) (S754_finite s m e)
    = S754_finite false 4503599627370496 (-52).
Proof.
  unfold SF64div, SFdiv, SFdiv_core_binary.
  replace (xorb s s) with false by now destruct s.
  replace (Zdigits2 (Z.pos m) + e - (Zdigits2 (Z.pos m) + e)) with 0 by lia.
  replace (e - e) with 0 by lia.
  change (Z.min (fexp prec emax 0) 0) with (-53).
  change (0 - -53) with 53.
  rewrite Z.shiftl_mul_pow2 by lia.
  pose proof (Z_div_mod (Z.pos m * 2 ^ 53) (Z.pos m) ltac:(lia)) as Hd.
  destruct (Z.div_eucl (Z.pos m * 2 ^ 53) (Z.pos m)) as [q r].
  assert (Hq : q = 2 ^ 53).
  { remember (2 ^ 53) as k eqn:Hk. clear Hk.
    destruct (Z.lt_trichotomy q k) as [Hlt | [Heq | Hgt]]; [| exact Heq |].
    - assert (Z.pos m * (k - q) >= Z.pos m * 1) by (apply Zmult_ge_compat_l; lia). lia.
    - assert (Z.pos m * (q - k) >= Z.pos m * 1) by (apply Zmult_ge_compat_l; lia). lia. }
  assert (Hr : r = 0) by (subst q; lia). subst q r.
  assert (Hloc : new_location (Z.pos m) 0 = loc_Exact).
  { unfold new_location, new_location_even, new_location_odd.
    destruct (Z.even (Z.pos m)); reflexivity. }
  rewrite Hloc. vm_compute. reflexivity.
Qed.

(** A finite float that is not zero, divided by itself, is one. *)
Lemma div_self (x : float) :
  is_finite x = true -> is_zero x = false -> (x / x)%float = 1%float.
Proof.
  intros Hf Hz. apply Prim2SF_inj. rewrite div_spec.
  change (Prim2SF 1) with (S754_finite false 4503599627370496 (-52)).
  unfold is_finite, is_nan, is_infinity, is_zero in *.
  rewrite !FloatAxioms.eqb_spec, abs_spec in Hf. rewrite FloatAxioms.eqb_spec in Hz.
  change (Prim2SF infinity) with (S754_infinity false) in Hf.
  change (Prim2SF zero) with (S754_zero false) in Hz.
  destruct (Prim2SF x) as [[|]|[|]| |s m e]; try discriminate.
  apply SFdiv_self.
Qed.

(** ** A quotient below one *)

(** The number of binary digits of a mantissa. *)
Lemma digits2_pos_bounds (m : positive) :
  2 ^ (Z.pos (digits2_pos m) - 1) <= Z.pos m < 2 ^ Z.pos (digits2_pos m).
Proof.
  induction m as [m IH | m IH |]; simpl digits2_pos.
  - rewrite Pos2Z.inj_succ.
    replace (Z.succ (Z.pos (digits2_pos m)) - 1) with (Z.succ (Z.pos (digits2_pos m) - 1)) by lia.
    rewrite !Z.pow_succ_r by lia. lia.
  - rewrite Pos2Z.inj_succ.
    replace (Z.succ (Z.pos (digits2_pos m)) - 1) with (Z.succ (Z.pos (digits2_pos m) - 1)) by lia.
    rewrite !Z.pow_succ_r by lia. lia.
  - simpl. lia.
Qed.

Lemma Zdigits2_below_pow (m k : Z) : 0 <= k -> 0 <= m < 2 ^ k -> Zdigits2 m <= k.
Proof.
  intros Hk [H0 Hm]. destruct m as [| p | p]; simpl; [lia | | lia].
  pose proof (digits2_pos_bounds p) as [Hlo _].
  assert (H : Z.pos (digits2_pos p) - 1 < k) by (apply (Z.pow_lt_mono_r_iff 2); lia).
  lia.
Qed.

Lemma Zdigits2_upto_pow (m k : Z) : 0 <= k -> 0 <= m <= 2 ^ k -> Zdigits2 m <= k + 1.
Proof.
  intros Hk [H0 Hm]. apply Zdigits2_below_pow; [lia |].
  split; [assumption |]. replace (k + 1) with (Z.succ k) by lia.
  rewrite Z.pow_succ_r by lia. pose proof (Z.pow_pos_nonneg 2 k). lia.
Qed.

(** Shifting a record to the right halves its mantissa. *)
Lemma shr_1_m (mrs : shr_record) : 0 <= shr_m mrs -> shr_m (shr_1 mrs) = shr_m mrs / 2.
Proof.
  intros H. rewrite <- Z.div2_div. destruct mrs as [[|[p|p|]|p] r s]; simpl in *;
    try reflexivity; lia.
Qed.

Lemma iter_pos_shr_1_m (n : positive) (mrs : shr_record) :
  0 <= shr_m mrs ->
  shr_m (SpecFloat.iter_pos shr_1 n mrs) = shr_m mrs / 2 ^ Z.pos n.
Proof.
  revert mrs. induction n as [n IH | n IH |]; intros mrs H; simpl SpecFloat.iter_pos.
  - assert (H1 : 0 <= shr_m (shr_1 mrs)) by now apply shr_1_nonneg.
    assert (H2 : 0 <= shr_m (SpecFloat.iter_pos shr_1 n (shr_1 mrs)))
      by now apply iter_pos_shr_1_nonneg.
    pose proof (Z.pow_pos_nonneg 2 (Z.pos n) ltac:(lia) ltac:(lia)) as Hp.
    rewrite IH, IH, shr_1_m by assumption.
    rewrite !Z.div_div by lia. f_equal.
    replace (Z.pos n~1) with (Z.succ (Z.pos n + Z.pos n)) by lia.
    rewrite Z.pow_succ_r, Z.pow_add_r by lia. lia.
  - assert (H2 : 0 <= shr_m (SpecFloat.iter_pos shr_1 n mrs))
      by now apply iter_pos_shr_1_nonneg.
    pose proof (Z.pow_pos_nonneg 2 (Z.pos n) ltac:(lia) ltac:(lia)) as Hp.
    rewrite IH, IH by assumption.
    rewrite !Z.div_div by lia. f_equal.
    replace (Z.pos n~0) with (Z.pos n + Z.pos n) by lia.
    now rewrite Z.pow_add_r by lia.
  - rewrite shr_1_m by assumption. reflexivity.
Qed.

(** The shift to the exponent of the format: the new exponent is the
    greater of the old one and that of the format, and the mantissa is
    divided accordingly. *)
Lemma shr_fexp_m (m e : Z) (l : location) :
  0 <= m ->
  (shr_fexp prec emax m e l).2 = Z.max e (fexp prec emax (Zdigits2 m + e)) /\
  shr_m (shr_fexp prec emax m e l).1 = m / 2 ^ ((shr_fexp prec emax m e l).2 - e).
Proof.
  intros H. unfold shr_fexp, shr.
  assert (H0 : shr_m (shr_record_of_loc m l) = m) by (destruct l as [|[]]; reflexivity).
  destruct (fexp prec emax (Zdigits2 m + e) - e) as [| n | n] eqn:E; simpl.
  - split; [lia |]. rewrite H0, Z.sub_diag. simpl. now rewrite Z.div_1_r.
  - split; [lia |]. rewrite iter_pos_shr_1_m by (rewrite H0; exact H).
    rewrite H0. f_equal. f_equal. lia.
  - split; [lia |]. rewrite H0, Z.sub_diag. simpl. now rewrite Z.div_1_r.
Qed.

Lemma round_nearest_even_upper (m : Z) (l : location) :
  round_nearest_even m l <= m + 1.
Proof. destruct l as [|[]]; simpl; try lia. destruct (Z.even m); lia. Qed.

Lemma fexp_le (k b : Z) : k <= b -> -1021 <= b -> fexp prec emax k <= b - 53.
Proof. unfold fexp, emin, prec, emax. lia. Qed.

(** A mantissa that stands for a number below one is rounded to a number
    that is at most one. *)
Lemma binary_round_aux_le_one (m e : Z) (l : location) :
  0 <= m < 2 ^ (- e) -> e <= -53 ->
  SFleb (binary_round_aux prec emax false m e l)
        (S754_finite false 4503599627370496 (-52)) = true.
Proof.
  intros [Hm0 Hm] He. unfold binary_round_aux.
  destruct (shr_fexp_m m e l Hm0) as [He1 Hm1].
  destruct (shr_fexp prec emax m e l) as [mrs1 e1]. simpl in He1, Hm1.
  assert (Hd : Zdigits2 m <= - e) by (apply Zdigits2_below_pow; lia).
  pose proof (fexp_le (Zdigits2 m + e) 0 ltac:(lia) ltac:(lia)) as Hf.
  assert (He1' : e <= e1 <= -53) by lia.
  assert (Hm1' : 0 <= shr_m mrs1 < 2 ^ (- e1)).
  { rewrite Hm1. split.
    - apply Z.div_pos; [assumption | apply Z.pow_pos_nonneg; lia].
    - apply Z.div_lt_upper_bound; [apply Z.pow_pos_nonneg; lia |].
      rewrite <- Z.pow_add_r by lia. now replace (e1 - e + - e1) with (- e) by lia. }
  set (m2 := round_nearest_even (shr_m mrs1) (loc_of_shr_record mrs1)).
  assert (Hm2 : 0 <= m2 <= 2 ^ (- e1)).
  { subst m2. split; [now apply round_nearest_even_nonneg |].
    pose proof (round_nearest_even_upper (shr_m mrs1) (loc_of_shr_record mrs1)). lia. }
  destruct (shr_fexp_m m2 e1 loc_Exact (proj1 Hm2)) as [He2 Hm3].
  destruct (shr_fexp prec emax m2 e1 loc_Exact) as [mrs2 e2]. simpl in He2, Hm3.
  assert (Hd2 : Zdigits2 m2 <= - e1 + 1) by (apply Zdigits2_upto_pow; lia).
  pose proof (fexp_le (Zdigits2 m2 + e1) 1 ltac:(lia) ltac:(lia)) as Hf2.
  assert (He2' : e1 <= e2 <= -52) by lia.
  destruct (shr_m mrs2) as [| p | p] eqn:Ep; [reflexivity | |].
  - destruct (Z.leb_spec e2 (emax - prec)) as [_ | Hbig];
      [| unfold emax, prec in Hbig; lia].
    unfold SFleb, SFcompare.
    destruct (Z.compare_spec e2 (-52)) as [Heq | Hlt | Hgt]; [| reflexivity | lia].
    assert (Hp : Z.pos p <= 4503599627370496).
    { rewrite Hm3, Heq.
      apply Z.div_le_upper_bound; [apply Z.pow_pos_nonneg; lia |].
      change 4503599627370496 with (2 ^ 52).
      rewrite <- Z.pow_add_r by lia.
      replace (-52 - e1 + 52) with (- e1) by lia. apply Hm2. }
    rewrite Pos.compare_cont_spec. simpl.
    destruct (Pos.compare_spec p 4503599627370496); [reflexivity | reflexivity | lia].
  - assert (0 <= Z.neg p); [| lia].
    rewrite Hm3. apply Z.div_pos; [lia | apply Z.pow_pos_nonneg; lia].
Qed.

(** The mantissa and the exponent of a valid finite float. *)
Lemma bounded_digits (m : positive) (e : Z) :
  bounded prec emax m e = true ->
  Z.pos (digits2_pos m) <= 53 /\ -1074 <= e /\
  (-1074 < e -> Z.pos (digits2_pos m) = 53).
Proof.
  unfold bounded, canonical_mantissa, fexp, emin, prec, emax.
  intros H. apply andb_true_iff in H as [H _]. apply Z.eqb_eq in H. lia.
Qed.

(** The quotient of the mantissas of a positive float and a greater one
    stands for a number below one. *)
Lemma SFdiv_core_below_one (mx : positive) (ex : Z) (my : positive) (ey : Z) :
  bounded prec emax mx ex = true -> bounded prec emax my ey = true ->
  SFltb (S754_finite false mx ex) (S754_finite false my ey) = true ->
  0 <= (SFdiv_core_binary prec emax (Z.pos mx) ex (Z.pos my) ey).1.1
    < 2 ^ (- (SFdiv_core_binary prec emax (Z.pos mx) ex (Z.pos my) ey).1.2) /\
  (SFdiv_core_binary prec emax (Z.pos mx) ex (Z.pos my) ey).1.2 <= -53.
Proof.
  intros Hbx Hby Hlt.
  destruct (bounded_digits _ _ Hbx) as (Hdx & Hex & _).
  destruct (bounded_digits _ _ Hby) as (Hdy & Hey & Hny).
  pose proof (digits2_pos_bounds mx) as [Hxlo Hxhi].
  pose proof (digits2_pos_bounds my) as [Hylo Hyhi].
  assert (Hcmp : ex <= ey /\
                 Z.pos (digits2_pos mx) + ex <= Z.pos (digits2_pos my) + ey /\
                 Z.pos mx < Z.pos my * 2 ^ (ey - ex)).
  { unfold SFltb, SFcompare in Hlt.
    destruct (Z.compare_spec ex ey) as [Heq | Hl | Hg]; [| | discriminate].
    - subst ey. rewrite Pos.compare_cont_spec in Hlt. simpl in Hlt.
      destruct (Pos.compare_spec mx my) as [| Hm |]; try discriminate.
      split; [lia |]. rewrite Z.sub_diag. simpl. split; [| lia].
      assert (Z.pos (digits2_pos mx) - 1 < Z.pos (digits2_pos my))
        by (apply (Z.pow_lt_mono_r_iff 2); lia).
      lia.
    - specialize (Hny ltac:(lia)). split; [lia |]. split; [lia |].
      rewrite Hny in Hylo. change (2 ^ (53 - 1)) with 4503599627370496 in Hylo.
      assert (Z.pos mx < 9007199254740992).
      { change 9007199254740992 with (2 ^ 53).
        eapply Z.lt_le_trans; [exact Hxhi | apply Z.pow_le_mono_r; lia]. }
      assert (2 ^ 1 <= 2 ^ (ey - ex)) by (apply Z.pow_le_mono_r; lia).
      change (2 ^ 1) with 2 in *. nia. }
  destruct Hcmp as (Hee & Hdd & Hmm).
  unfold SFdiv_core_binary. simpl Zdigits2.
  set (e' := Z.min _ (ex - ey)).
  pose proof (fexp_le (Z.pos (digits2_pos mx) + ex - (Z.pos (digits2_pos my) + ey)) 0
                ltac:(lia) ltac:(lia)) as Hf.
  assert (He' : e' <= -53 /\ e' <= ex - ey) by (subst e'; lia).
  set (s := ex - ey - e').
  assert (Hs : 0 <= s) by (subst s; lia).
  set (m' := match s with Z.pos _ => Z.shiftl (Z.pos mx) s | 0 => Z.pos mx | Z.neg _ => 0 end).
  assert (Hm' : m' = Z.pos mx * 2 ^ s).
  { subst m'. destruct s as [| p | p] eqn:Es; [simpl; lia | | lia].
    apply Z.shiftl_mul_pow2. lia. }
  assert (Hq : (Z.div_eucl m' (Z.pos my)).1 = m' / Z.pos my)
    by (unfold Z.div; now destruct (Z.div_eucl m' (Z.pos my))).
  destruct (Z.div_eucl m' (Z.pos my)) as [q r]. simpl in *. subst q.
  split; [| lia]. split.
  - apply Z.div_pos; [| lia]. rewrite Hm'.
    pose proof (Z.pow_pos_nonneg 2 s ltac:(lia) Hs). nia.
  - apply Z.div_lt_upper_bound; [lia |]. rewrite Hm'.
    replace (- e') with (ey - ex + s) by (subst s; lia).
    rewrite Z.pow_add_r by lia.
    pose proof (Z.pow_pos_nonneg 2 s ltac:(lia) Hs). nia.
Qed.

(** The quotient of a float that is zero or positive by a greater float is
    at most one. *)
Lemma SFdiv_le_one (x y : spec_float) :
  valid_binary x = true -> valid_binary y = true ->
  SF_distance x = true -> SFltb x y = true ->
  SFleb (SF64div x y) (S754_finite false 4503599627370496 (-52)) = true.
Proof.
  destruct x as [[|]|[|]| |[|] mx ex], y as [[|]|[|]| |[|] my ey]; simpl;
    try discriminate; try reflexivity.
  intros Hbx Hby _ Hlt. unfold SF64div, SFdiv.
  destruct (SFdiv_core_below_one mx ex my ey Hbx Hby Hlt) as [Hq He].
  destruct (SFdiv_core_binary prec emax (Z.pos mx) ex (Z.pos my) ey) as [[q e'] l].
  simpl in *. now apply binary_round_aux_le_one.
Qed.

(** The same for the floats themselves. *)
Lemma div_le_one (x y : float) :
  is_distance x = true -> (x <? y)%float = true -> (x / y <=? 1)%float = true.
Proof.
  rewrite is_distance_SF, FloatAxioms.ltb_spec, FloatAxioms.leb_spec, div_spec.
  change (Prim2SF 1) with (S754_finite false 4503599627370496 (-52)).
  apply SFdiv_le_one; apply Prim2SF_valid.
Qed.

(** * Further properties of the resolver *)

(** What an index reads is an element of the array. *)
Lemma getitem_In {A : Type} (a : list A) (i : Z) (x : A) :
  np.getitem a i = Ok x -> In x a.
Proof.
  unfold np.getitem. destruct (_ && _); [| discriminate].
  destruct (a !! _) as [y |] eqn:E; [| discriminate]. intros [= <-].
  apply list_elem_of_In. eapply list_elem_of_lookup_2, E.
Qed.

Lemma getitem_nat_inv {A : Type} (a : list A) (k : nat) (x : A) :
  np.getitem a (Z.of_nat k) = Ok x -> a !! k = Some x.
Proof.
  unfold np.getitem. destruct (Z.ltb_spec (Z.of_nat k) 0); [lia |].
  destruct (_ && _); [| discriminate]. rewrite Nat2Z.id.
  destruct (a !! k); [congruence | discriminate].
Qed.

(** X1. What the resolver returns is one of the candidates it was given,
    with the reciprocal of that candidate's mutual reachability distance. *)
Theorem resolver_returns_candidate (idx : list Z) (dist core : list float) (ms : Z)
    (nb : Z) (lambda_ : float) :
  _find_neighbor_and_lambda idx dist core ms = Ok (nb, lambda_) ->
  exists (mr : list float) (k : nat) (m : float),
    mr_distances idx dist core ms = Ok mr /\
    idx !! k = Some nb /\ mr !! k = Some m /\
    lambda_ = (1 / m)%float /\ In nb idx.
Proof.
  unfold _find_neighbor_and_lambda.
  destruct (mr_distances idx dist core ms) as [mr |]; simpl; [| discriminate].
  destruct (np.argmin mr) as [k |]; simpl; [| discriminate].
  destruct (np.getitem idx (Z.of_nat k)) as [nb' |] eqn:En; simpl; [| discriminate].
  destruct (np.getitem mr (Z.of_nat k)) as [m |] eqn:Em; simpl; [| discriminate].
  intros [= <- <-]. exists mr, k, m.
  repeat split; eauto using getitem_nat_inv, getitem_In.
Qed.

Lemma resolver_returns_candidate_witness :
  exists (mr : list float) (k : nat) (m : float),
    mr_distances example_indices example_distances example_core_distances 2 = Ok mr /\
    example_indices !! k = Some 5 /\ mr !! k = Some m /\
    0.5%float = (1 / m)%float /\ In 5 example_indices.
Proof.
  apply (resolver_returns_candidate example_indices example_distances
           example_core_distances 2 5 0.5%float).
  vm_compute. reflexivity.
Defined.

(** ** A distance that is not a number *)

Lemma is_nan_Prim2SF (x : float) : is_nan x = true -> Prim2SF x = S754_nan.
Proof.
  rewrite is_nan_spec. destruct (Prim2SF x) as [[|]|[|]| |[|] m e]; simpl;
    try discriminate; try reflexivity; unfold SFeqb, SFcompare;
    now rewrite Z.compare_refl, Pos.compare_cont_refl.
Qed.

Lemma leb_nan_l (x y : float) : is_nan x = true -> (x <=? y)%float = false.
Proof.
  intros H. rewrite FloatAxioms.leb_spec, (is_nan_Prim2SF x H). reflexivity.
Qed.

Lemma leb_nan_r (x y : float) : is_nan y = true -> (x <=? y)%float = false.
Proof.
  intros H. rewrite FloatAxioms.leb_spec, (is_nan_Prim2SF y H).
  unfold SFleb, SFcompare. now destruct (Prim2SF x) as [[|]|[|]| |[|] m e].
Qed.

Lemma maximum_nan (a b : float) :
  is_nan a = true \/ is_nan b = true -> is_nan (np.maximum a b) = true.
Proof.
  unfold np.maximum. intros [H | H].
  - now rewrite H, orb_true_r.
  - rewrite (leb_nan_l b a H). simpl. destruct (is_nan a) eqn:E; assumption.
Qed.

Lemma div_nan_r (x y : float) : is_nan y = true -> (x / y)%float = nan.
Proof.
  intros H. apply Prim2SF_inj. rewrite div_spec, (is_nan_Prim2SF y H).
  change (Prim2SF nan) with S754_nan.
  unfold SF64div, SFdiv. now destruct (Prim2SF x) as [[|]|[|]| |[|] m e].
Qed.

(** [argmin] stops at the first [nan] of the array. *)
Lemma argmin_scan_nan (l pre : list float) (mp : float) (ind : nat) :
  is_nan mp = false -> Exists (fun x => is_nan x = true) l ->
  exists x, (pre ++ l) !! np.argmin_scan mp ind (length pre) l = Some x /\
            is_nan x = true.
Proof.
  revert pre mp ind. induction l as [| y l IH]; intros pre mp ind Hmp Hex.
  - inversion Hex.
  - simpl.
    replace (pre ++ y :: l) with ((pre ++ [y]) ++ l) by now rewrite <- app_assoc.
    replace (S (length pre)) with (length (pre ++ [y]))
      by (rewrite length_app; simpl; lia).
    destruct (is_nan y) eqn:Ey.
    + rewrite (leb_nan_r mp y Ey). simpl. exists y. split; [| assumption].
      rewrite <- app_assoc. simpl. now rewrite list_lookup_middle.
    + assert (Hl : Exists (fun x => is_nan x = true) l).
      { inversion Hex; subst; [congruence | assumption]. }
      destruct (mp <=? y)%float; simpl; now apply IH.
Qed.

Lemma argmin_nan (a : list float) :
  Exists (fun x => is_nan x = true) a ->
  exists k x, np.argmin a = Ok k /\ a !! k = Some x /\ is_nan x = true.
Proof.
  destruct a as [| y l]; intros Hex; [inversion Hex |]. simpl.
  destruct (is_nan y) eqn:Ey.
  - exists 0%nat, y. auto.
  - assert (Hl : Exists (fun x => is_nan x = true) l).
    { inversion Hex; subst; [congruence | assumption]. }
    destruct (argmin_scan_nan l [y] y 0%nat Ey Hl) as (x & Hx & Hn).
    simpl in Hx. eauto.
Qed.

(** The mutual reachability distances of a query of the right shape. *)
Lemma mr_distances_shaped (idx : list Z) (dist core : list float) (ms : Z) :
  query_shaped idx dist core ms ->
  exists pseudo cs,
    dist !! Z.to_nat ms = Some pseudo /\
    Forall2 (fun i c => core !! Z.to_nat i = Some c) idx cs /\
    mr_distances idx dist core ms
      = Ok (zip_with np.maximum
              (zip_with np.maximum cs (replicate (length idx) pseudo)) dist).
Proof.
  intros [Hms Hn Hlen Hidx].
  destruct (getitem_in_range dist ms) as (pseudo & Hp & Hget); [lia |].
  destruct (take_in_range core idx Hidx) as (cs & Htake & Hcs).
  pose proof (Forall2_length _ _ _ Hcs) as Hlcs.
  exists pseudo, cs. split; [assumption |]. split; [assumption |].
  unfold mr_distances. rewrite point_core_distances_broadcast, Htake. simpl.
  rewrite Hget. simpl. unfold np.vstack3_max.
  rewrite length_replicate, <- Hlcs, Hlen, !Nat.eqb_refl. reflexivity.
Qed.

(** X2. A raw distance that is not a number spoils the answer: on a query
    of the right shape with a [nan] among its raw distances the resolver
    still returns one of the candidates, and the lambda it returns is
    [nan]. *)
Theorem resolver_nan_distance (idx : list Z) (dist core : list float) (ms : Z)
    (j : nat) (x : float) :
  query_shaped idx dist core ms ->
  dist !! j = Some x -> is_nan x = true ->
  exists nb, In nb idx /\ _find_neighbor_and_lambda idx dist core ms = Ok (nb, nan).
Proof.
  intros Hq Hj Hx.
  destruct (mr_distances_shaped _ _ _ _ Hq) as (pseudo & cs & Hp & Hcs & Hmr).
  set (mr := zip_with _ _ dist) in Hmr.
  pose proof (Forall2_length _ _ _ Hcs) as Hlcs.
  destruct Hq as [_ _ Hlen _].
  assert (Hjl : (j < length dist)%nat) by (eapply lookup_lt_Some, Hj).
  destruct (lookup_lt_is_Some_2 cs j) as [c Hc]; [lia |].
  assert (Hmj : mr !! j = Some (np.maximum (np.maximum c pseudo) x)).
  { apply lookup_zip_with_Some. exists (np.maximum c pseudo), x.
    split; [reflexivity |]. split; [| assumption].
    apply lookup_zip_with_Some. exists c, pseudo.
    split; [reflexivity |]. split; [assumption |].
    apply lookup_replicate. split; [reflexivity | lia]. }
  destruct (argmin_nan mr) as (k & m & Hk & Hm & Hn).
  { apply Exists_exists. exists (np.maximum (np.maximum c pseudo) x). split.
    - eapply list_elem_of_lookup_2, Hmj.
    - apply maximum_nan. now right. }
  destruct (lookup_lt_is_Some_2 idx k) as [nb Hnb].
  { apply lookup_lt_Some in Hm. subst mr.
    rewrite !length_zip_with, length_replicate in Hm. lia. }
  exists nb. split.
  - apply list_elem_of_In. eapply list_elem_of_lookup_2, Hnb.
  - unfold _find_neighbor_and_lambda. rewrite Hmr. simpl. rewrite Hk. simpl.
    rewrite (getitem_nat _ _ _ Hnb). simpl. rewrite (getitem_nat _ _ _ Hm). simpl.
    now rewrite (div_nan_r 1 m Hn).
Qed.

Lemma resolver_nan_distance_witness :
  exists nb, In nb [5; 4; 3; 0] /\
    _find_neighbor_and_lambda [5; 4; 3; 0] [0.5; nan; 2; 6]%float
      example_core_distances 2 = Ok (nb, nan).
Proof.
  apply (resolver_nan_distance [5; 4; 3; 0] [0.5; nan; 2; 6]%float
           example_core_distances 2 1%nat nan).
  - split; [lia | simpl; lia | reflexivity | repeat constructor; simpl; lia].
  - reflexivity.
  - reflexivity.
Defined.

(** ** The sign of lambda *)

Lemma Forall_lookup_distance (l : list float) (k : nat) (x : float) :
  Forall (fun d => is_distance d = true) l -> l !! k = Some x -> is_distance x = true.
Proof.
  intros H Hk. eapply Forall_forall in H; [exact H |].
  eapply list_elem_of_lookup_2, Hk.
Qed.

(** A float that is zero, positive or infinite is not below zero. *)
Lemma distance_not_below_zero (x : float) :
  is_distance x = true -> (0 <=? x)%float = true.
Proof.
  rewrite is_distance_SF, FloatAxioms.leb_spec.
  change (Prim2SF 0) with (S754_zero false).
  now destruct (Prim2SF x) as [[|]|[|]| |[|] mm e].
Qed.

(** On a well formed query with distances that are zero or positive the
    resolver returns, and its lambda is zero, positive or infinite. *)
Lemma resolver_lambda_distance (idx : list Z) (dist core : list float) (ms : Z) :
  query_ok idx dist core ms ->
  Forall (fun d => is_distance d = true) dist ->
  Forall (fun d => is_distance d = true) core ->
  exists nb lambda_,
    _find_neighbor_and_lambda idx dist core ms = Ok (nb, lambda_) /\
    In nb idx /\ is_distance lambda_ = true.
Proof.
  intros Hq Hd Hc.
  destruct (resolver_query_ok _ _ _ _ Hq) as (mr & k & nb & m & Hmr & _ & Hfm & Hnb & Hres).
  pose proof (mr_distances_are_distances _ _ _ _ _ Hd Hc Hmr) as Hall.
  destruct Hfm as (Hk & _ & _).
  pose proof (one_over_distance m (Forall_lookup_distance _ _ _ Hall Hk)) as Hl.
  exists nb, (1 / m)%float. split; [assumption |]. split; [| assumption].
  eapply list_elem_of_In, list_elem_of_lookup_2, Hnb.
Qed.

(** X3. On a well formed query with distances that are zero or positive,
    the lambda that the resolver returns is zero, positive or infinite: it
    is never negative and never [nan]. *)
Theorem resolver_lambda_sign (idx : list Z) (dist core : list float) (ms : Z) :
  query_ok idx dist core ms ->
  Forall (fun d => is_distance d = true) dist ->
  Forall (fun d => is_distance d = true) core ->
  exists nb lambda_,
    _find_neighbor_and_lambda idx dist core ms = Ok (nb, lambda_) /\
    is_distance lambda_ = true /\ (0 <=? lambda_)%float = true.
Proof.
  intros Hq Hd Hc.
  destruct (resolver_lambda_distance _ _ _ _ Hq Hd Hc) as (nb & l & Hres & _ & Hl).
  exists nb, l. auto using distance_not_below_zero.
Qed.

Lemma resolver_lambda_sign_witness :
  exists nb lambda_,
    _find_neighbor_and_lambda coinciding_indices coinciding_distances
      example_core_distances 2 = Ok (nb, lambda_) /\
    is_distance lambda_ = true /\ (0 <=? lambda_)%float = true.
Proof.
  apply (resolver_lambda_sign coinciding_indices coinciding_distances
           example_core_distances 2).
  - split; [lia | simpl; lia | reflexivity | repeat constructor; simpl; lia
           | repeat constructor | repeat constructor].
  - repeat constructor.
  - repeat constructor.
Defined.

(** Two distances that are each at most the other are the same float. *)
Lemma SF_distance_antisym (a b : spec_float) :
  SF_distance a = true -> SF_distance b = true ->
  SFleb a b = true -> SFleb b a = true -> a = b.
Proof.
  unfold SFleb, SFcompare.
  destruct a as [[|]|[|]| |[|] ma ea], b as [[|]|[|]| |[|] mb eb]; simpl;
    intros Ha Hb; try discriminate; try reflexivity; try (intros H1 H2; discriminate).
  destruct (Z.compare_spec ea eb) as [Heq | Hlt | Hgt]; simpl.
  - subst ea. rewrite Z.compare_refl.
    change (Pos.compare_cont Eq ma mb) with (Pos.compare ma mb).
    change (Pos.compare_cont Eq mb ma) with (Pos.compare mb ma).
    destruct (Pos.compare_spec ma mb) as [-> | |]; [reflexivity | |];
      destruct (Pos.compare_spec mb ma); try discriminate; lia.
  - destruct (Z.compare_spec eb ea); try lia; discriminate.
  - discriminate.
Qed.

Lemma distance_antisym (a b : float) :
  is_distance a = true -> is_distance b = true ->
  (a <=? b)%float = true -> (b <=? a)%float = true -> a = b.
Proof.
  rewrite !is_distance_SF, !FloatAxioms.leb_spec. intros Ha Hb H1 H2.
  apply Prim2SF_inj. now apply SF_distance_antisym.
Qed.

(** The greatest of a pseudo core distance and two distances that do not
    exceed it is the pseudo core distance. *)
Lemma maximum3_pseudo (c p d : float) :
  is_distance c = true -> is_distance p = true -> is_distance d = true ->
  (c <=? p)%float = true -> (d <=? p)%float = true ->
  np.maximum (np.maximum c p) d = p.
Proof.
  intros Hc Hp Hd Hcp Hdp.
  assert (H1 : np.maximum c p = p).
  { unfold np.maximum. rewrite (is_distance_not_nan c Hc), orb_false_r.
    destruct (p <=? c)%float eqn:E; [| reflexivity]. now apply distance_antisym. }
  rewrite H1. unfold np.maximum. now rewrite Hdp.
Qed.

(** X4. A point finds itself: when the first candidate of a well formed
    query is no farther than the pseudo core distance and its core distance
    does not exceed the pseudo core distance either, as for a fitted point
    submitted again, the resolver returns that first candidate with the
    reciprocal of the pseudo core distance. *)
Theorem resolver_first_candidate (idx : list Z) (dist core : list float) (ms : Z)
    (i0 : Z) (d0 c0 pseudo : float) :
  query_ok idx dist core ms ->
  Forall (fun d => is_distance d = true) dist ->
  Forall (fun d => is_distance d = true) core ->
  idx !! 0%nat = Some i0 -> dist !! 0%nat = Some d0 ->
  core !! Z.to_nat i0 = Some c0 ->
  dist !! Z.to_nat ms = Some pseudo ->
  (d0 <=? pseudo)%float = true -> (c0 <=? pseudo)%float = true ->
  _find_neighbor_and_lambda idx dist core ms = Ok (i0, (1 / pseudo)%float).
Proof.
  intros Hq Hd Hc Hi0 Hd0 Hc0 Hp Hdp Hcp.
  destruct (mr_distances_query_ok _ _ _ _ Hq) as (p & mr & Hp' & Hmr & Hlen & Hnn & Hat).
  assert (p = pseudo) as -> by congruence.
  destruct (resolver_query_ok _ _ _ _ Hq) as (mr' & k & nb & m & Hmr' & _ & Hfm & Hnb & Hres).
  assert (mr' = mr) as -> by congruence.
  destruct Hfm as (Hk & Hle & Hlt).
  pose proof (Forall_lookup_distance _ _ _ Hd Hp) as Hpd.
  assert (H0 : mr !! 0%nat = Some pseudo).
  { destruct (Hat 0%nat i0 d0 Hi0 Hd0) as (c & Hc' & Hv).
    assert (c = c0) as -> by congruence. rewrite Hv. f_equal.
    apply maximum3_pseudo; eauto using Forall_lookup_distance. }
  assert (Hmp : (pseudo <=? m)%float = true).
  { destruct (lookup_lt_is_Some_2 idx k) as [i Hi].
    { rewrite <- Hlen. eapply lookup_lt_Some, Hk. }
    destruct (lookup_lt_is_Some_2 dist k) as [d Hdk].
    { destruct Hq as [_ _ Hl _ _ _]. rewrite <- Hl, <- Hlen.
      eapply lookup_lt_Some, Hk. }
    destruct (Hat k i d Hi Hdk) as (c & Hc' & Hv).
    assert (m = np.maximum (np.maximum c pseudo) d) as -> by congruence.
    destruct Hq as [_ _ _ _ Hdn Hcn].
    assert (Hcn' : not_nan c).
    { eapply Forall_forall in Hcn; [exact Hcn |]. eapply list_elem_of_lookup_2, Hc'. }
    assert (Hdn' : not_nan d).
    { eapply Forall_forall in Hdn; [exact Hdn |]. eapply list_elem_of_lookup_2, Hdk. }
    destruct (maximum3_is_max c pseudo d Hcn' (is_distance_not_nan _ Hpd) Hdn')
      as (_ & _ & H & _).
    exact H. }
  destruct k as [| k].
  - assert (m = pseudo) by congruence. assert (nb = i0) by congruence.
    subst. exact Hres.
  - pose proof (Hlt 0%nat pseudo ltac:(lia) H0) as Hlt0.
    apply ltb_not_leb in Hlt0. congruence.
Qed.

Lemma resolver_first_candidate_witness :
  _find_neighbor_and_lambda [4; 3; 5; 0] [0; 0.5; 1; 4.5]%float
    example_core_distances 2 = Ok (4, (1 / 1)%float).
Proof.
  apply (resolver_first_candidate [4; 3; 5; 0] [0; 0.5; 1; 4.5]%float
           example_core_distances 2 4 0%float 0.5%float 1%float).
  - split; [lia | simpl; lia | reflexivity | repeat constructor; simpl; lia
           | repeat constructor | repeat constructor].
  - repeat constructor.
  - repeat constructor.
  - reflexivity.
  - reflexivity.
  - reflexivity.
  - reflexivity.
  - reflexivity.
  - reflexivity.
Defined.

(** ** Errors of the resolver *)

Lemma traverse_raises {A B : Type} (f : A -> result B) (l : list A) (x : A) (e : exn) :
  In x l -> f x = Raise e -> exists e', traverse f l = Raise e'.
Proof.
  induction l as [| y l IH]; intros Hin Hx; [inversion Hin |]. simpl.
  destruct (f y) as [b |] eqn:Ey; simpl; [| eauto].
  destruct Hin as [-> | Hin]; [congruence |].
  destruct (IH Hin Hx) as [e' ->]. simpl. eauto.
Qed.

Lemma getitem_outside {A : Type} (a : list A) (i : Z) :
  i < - Z.of_nat (length a) \/ Z.of_nat (length a) <= i ->
  np.getitem a i = Raise IndexError.
Proof.
  intros H. unfold np.getitem.
  destruct (Z.ltb_spec i 0).
  - destruct (Z.leb_spec 0 (i + Z.of_nat (length a))); [lia |]. reflexivity.
  - destruct (Z.ltb_spec i (Z.of_nat (length a))); [lia |].
    now rewrite andb_false_r.
Qed.

(** X5. A candidate index that is not a position of the core distance
    array, at or beyond its length or below minus its length, makes the
    resolver raise [IndexError], whatever the rest of the query is. *)
Theorem resolver_index_outside (idx : list Z) (dist core : list float) (ms i : Z) :
  In i idx ->
  i < - Z.of_nat (length core) \/ Z.of_nat (length core) <= i ->
  _find_neighbor_and_lambda idx dist core ms = Raise IndexError.
Proof.
  intros Hin Hi. unfold _find_neighbor_and_lambda, mr_distances.
  destruct (traverse_raises (np.getitem core) idx i IndexError Hin
              (getitem_outside core i Hi)) as [e He].
  unfold np.take. rewrite He. simpl.
  now rewrite (take_raises core idx e He).
Qed.

Lemma resolver_index_outside_witness :
  _find_neighbor_and_lambda [5; 4; 6; 0] example_distances example_core_distances 2
    = Raise IndexError.
Proof.
  apply (resolver_index_outside [5; 4; 6; 0] example_distances
           example_core_distances 2 6).
  - simpl. auto.
  - right. simpl. lia.
Defined.

(** X6. When the indices and the distances of a query differ in number,
    every index being a position of the core distances and [min_samples] a
    position of the distances, the resolver raises the [ValueError] of
    [np.vstack]. *)
Theorem resolver_length_mismatch (idx : list Z) (dist core : list float) (ms : Z) :
  Forall (fun i => 0 <= i < Z.of_nat (length core)) idx ->
  0 <= ms < Z.of_nat (length dist) ->
  length idx <> length dist ->
  exists msg, _find_neighbor_and_lambda idx dist core ms = Raise (ValueError msg).
Proof.
  intros Hidx Hms Hlen. unfold _find_neighbor_and_lambda, mr_distances.
  destruct (take_in_range core idx Hidx) as (cs & -> & Hcs). simpl.
  rewrite point_core_distances_broadcast.
  destruct (getitem_in_range dist ms Hms) as (p & _ & ->). simpl.
  unfold np.vstack3_max.
  rewrite length_replicate, <- (Forall2_length _ _ _ Hcs), Nat.eqb_refl. simpl.
  destruct (Nat.eqb_spec (length idx) (length dist)); [contradiction | eauto].
Qed.

Lemma resolver_length_mismatch_witness :
  exists msg,
    _find_neighbor_and_lambda [5; 4; 3] example_distances example_core_distances 2
      = Raise (ValueError msg).
Proof.
  apply (resolver_length_mismatch [5; 4; 3] example_distances example_core_distances 2).
  - repeat constructor; simpl; lia.
  - simpl. lia.
  - simpl. lia.
Defined.

(** * Further properties of the walk up the tree *)

(** The trees of the example are well formed. *)
Lemma example_cluster_tree_wf : tree_wf example_cluster_tree 6.
Proof.
  change example_cluster_tree with [TreeRow 6 7 0.25 3; TreeRow 6 8 0.25 3]%float.
  split.
  - intros r Hr. destruct Hr as [<- | [<- | []]]; simpl; lia.
  - intros c Hc. unfold rows_with_child. cbn -[Z.eqb].
    destruct (Z.eqb_spec 7 c); destruct (Z.eqb_spec 8 c); cbn; lia.
Qed.

Lemma example_tree_wf : tree_wf example_tree 6.
Proof.
  split.
  - intros r Hr. unfold example_tree in Hr.
    repeat (destruct Hr as [<- | Hr]; [simpl; lia |]). destruct Hr.
  - intros c Hc. unfold rows_with_child, example_tree. cbn -[Z.eqb].
    destruct (Z.eqb_spec 7 c); [subst; cbn; lia |].
    destruct (Z.eqb_spec 8 c); [subst; cbn; lia |].
    repeat match goal with
           | |- context [?a =? c] => destruct (Z.eqb_spec a c); [lia |]
           end.
    cbn. lia.
Qed.







(** * Further properties of the label and the probability *)

(** A float above zero is zero, positive or infinite, and is not zero. *)
Lemma positive_distance (x : float) :
  (0 <? x)%float = true -> is_distance x = true /\ is_zero x = false.
Proof.
  intros H. split.
  - rewrite is_distance_SF. rewrite FloatAxioms.ltb_spec in H.
    change (Prim2SF 0) with (S754_zero false) in H.
    now destruct (Prim2SF x) as [[|]|[|]| |[|] m e].
  - unfold is_zero. now apply ltb_not_eqb.
Qed.

(** A distance other than infinity is finite. *)
Lemma distance_finite (x : float) :
  is_distance x = true -> x <> infinity -> is_finite x = true.
Proof.
  rewrite is_distance_SF. intros H Hinf.
  unfold is_finite, is_nan, is_infinity.
  rewrite !FloatAxioms.eqb_spec, abs_spec.
  change (Prim2SF infinity) with (S754_infinity false).
  destruct (Prim2SF x) as [[|]|[|]| |[|] m e] eqn:E; try discriminate; try reflexivity.
  - exfalso. apply Hinf, Prim2SF_inj. exact E.
  - simpl. unfold SFeqb, SFcompare.
    now rewrite Z.compare_refl, Pos.compare_cont_refl.
Qed.

(** The clamp of lines 291 and 292: when the lambda of the point is not
    below a greatest lambda that is positive and finite, the quotient is
    exactly one. *)
Lemma clamped_quotient (max_lambda lambda_ : float) :
  (0 <? max_lambda)%float = true -> max_lambda <> infinity ->
  (lambda_ <? max_lambda)%float = false ->
  (py_min max_lambda lambda_ / max_lambda)%float = 1%float.
Proof.
  intros Hpos Hinf Hlt. unfold py_min. rewrite Hlt.
  destruct (positive_distance _ Hpos) as [Hd Hz].
  apply div_self; [now apply distance_finite | assumption].
Qed.

(** Nothing is above infinity. *)
Lemma infinity_not_below (x : float) : (infinity <? x)%float = false.
Proof.
  rewrite FloatAxioms.ltb_spec. change (Prim2SF infinity) with (S754_infinity false).
  now destruct (Prim2SF x) as [[|]|[|]| |[|] m e].
Qed.

(** The lambda that comes with the enclosing node is the one of the
    resolver. *)
Lemma enclosing_node_lambda (fuel : nat) (raw_tree cluster_tree : list tree_row)
    (idx : list Z) (dist core : list float) (ms node : Z) (lambda_ : float) :
  enclosing_node fuel raw_tree cluster_tree idx dist core ms = Ok (node, lambda_) ->
  exists nb, _find_neighbor_and_lambda idx dist core ms = Ok (nb, lambda_).
Proof.
  unfold enclosing_node.
  destruct (np.min (map parent cluster_tree)) as [root |]; simpl; [| discriminate].
  destruct (_find_neighbor_and_lambda idx dist core ms) as [[nb l] |]; simpl;
    [| discriminate].
  destruct (get_tree_row_with_child raw_tree nb) as [r |]; simpl; [| discriminate].
  destruct (l <? lambda_val r)%float.
  - destruct (ascend fuel cluster_tree root l (parent r)); simpl; [| discriminate].
    intros [= _ <-]. eauto.
  - intros [= _ <-]. eauto.
Qed.

(** X9. A point whose lambda is not below the greatest lambda of its
    node, also a lambda that is not a number, gets the label of the node
    with the probability exactly one, provided the label is not negative
    and the greatest lambda is not infinite. *)
Theorem probability_one_at_max_lambda (cluster_map : gmap Z Z) (max_lambdas : gmap Z float)
    (node label : Z) (lambda_ max_lambda : float) :
  cluster_map !! node = Some label -> 0 <= label ->
  max_lambdas !! node = Some max_lambda ->
  max_lambda <> infinity ->
  (lambda_ <? max_lambda)%float = false ->
  label_and_probability cluster_map max_lambdas node lambda_ = Ok (label, 1%float).
Proof.
  intros Hl Hpos Hml Hinf Hlt. unfold label_and_probability. rewrite Hl, Hml.
  destruct (Z.leb_spec 0 label); [| lia].
  destruct (0 <? max_lambda)%float eqn:E; [| reflexivity].
  now rewrite clamped_quotient.
Qed.

Lemma probability_one_at_max_lambda_witness :
  label_and_probability example_cluster_map example_max_lambdas 8 nan = Ok (1, 1%float).
Proof.
  apply (probability_one_at_max_lambda example_cluster_map example_max_lambdas
           8 1 nan 1%float).
  - vm_compute. reflexivity.
  - lia.
  - vm_compute. reflexivity.
  - intros H. apply (f_equal Prim2SF) in H. vm_compute in H. discriminate.
  - vm_compute. reflexivity.
Defined.

(** A distance that is not below infinity is infinity. *)
Lemma distance_not_below_infinity (x : float) :
  is_distance x = true -> (x <? infinity)%float = false -> x = infinity.
Proof.
  rewrite is_distance_SF, FloatAxioms.ltb_spec.
  change (Prim2SF infinity) with (S754_infinity false).
  intros Hd Hlt. apply Prim2SF_inj.
  change (Prim2SF infinity) with (S754_infinity false).
  now destruct (Prim2SF x) as [[|]|[|]| |[|] m e].
Qed.

(** The probability of lines 287 to 296 for a lambda that is zero,
    positive or infinite: it lies between zero and one, unless the lambda
    of the point and the greatest lambda of the node are both infinite. *)
Lemma label_and_probability_bounds (cluster_map : gmap Z Z) (max_lambdas : gmap Z float)
    (node : Z) (lambda_ : float) (label : Z) (prob : float) :
  is_distance lambda_ = true ->
  label_and_probability cluster_map max_lambdas node lambda_ = Ok (label, prob) ->
  in_unit_interval prob = true \/
  is_nan prob = true /\ 0 <= label /\ lambda_ = infinity /\
    cluster_map !! node = Some label /\ max_lambdas !! node = Some infinity.
Proof.
  intros Hl. unfold label_and_probability.
  destruct (cluster_map !! node) as [l |] eqn:El; [| intros [= <- <-]; now left].
  destruct (Z.leb_spec 0 l) as [Hpos | Hneg]; [| intros [= <- <-]; now left].
  destruct (max_lambdas !! node) as [ml |] eqn:Eml; [| discriminate].
  destruct (0 <? ml)%float eqn:Epos; [| intros [= <- <-]; now left].
  intros [= <- <-]. destruct (positive_distance _ Epos) as [Hmd Hz].
  unfold py_min. destruct (lambda_ <? ml)%float eqn:Elt.
  - left. unfold in_unit_interval. rewrite (div_le_one _ _ Hl Elt), andb_true_r.
    apply distance_not_below_zero.
    destruct (div_distance _ _ Hl Hmd) as [H | [_ [[_ H] | [H _]]]]; [exact H | |].
    + subst ml. discriminate Epos.
    + subst lambda_. now rewrite infinity_not_below in Elt.
  - destruct (is_infinity ml) eqn:Einf.
    + assert (ml = infinity) as ->.
      { unfold is_infinity in Einf. rewrite FloatAxioms.eqb_spec, abs_spec in Einf.
        rewrite is_distance_SF in Hmd. apply Prim2SF_inj.
        change (Prim2SF infinity) with (S754_infinity false) in *.
        now destruct (Prim2SF ml) as [[|]|[|]| |[|] m e]. }
      right. split; [reflexivity |]. split; [assumption |].
      split; [now apply distance_not_below_infinity |]. now split.
    + left. rewrite div_self; [reflexivity | | assumption].
      apply distance_finite; [assumption |]. intros ->. discriminate Einf.
Qed.

(** X10. On a well formed query with distances that are zero or positive,
    the probability that [_find_cluster_and_probability] returns lies
    between zero and one, with one exception: when the lambda of the point
    is infinite (a mutual reachability distance of zero) and the greatest
    lambda of a node with the returned label is infinite as well, the
    probability is [nan]. *)
Theorem probability_range (fuel : nat) (raw_tree cluster_tree : list tree_row)
    (idx : list Z) (dist core : list float) (cluster_map : gmap Z Z)
    (max_lambdas : gmap Z float) (ms : Z) (label : Z) (prob : float) :
  query_ok idx dist core ms ->
  Forall (fun d => is_distance d = true) dist ->
  Forall (fun d => is_distance d = true) core ->
  _find_cluster_and_probability fuel raw_tree cluster_tree idx dist core
    cluster_map max_lambdas ms = Ok (label, prob) ->
  in_unit_interval prob = true \/
  is_nan prob = true /\ 0 <= label /\
    (exists nb, _find_neighbor_and_lambda idx dist core ms = Ok (nb, infinity)) /\
    (exists n, cluster_map !! n = Some label /\ max_lambdas !! n = Some infinity).
Proof.
  intros Hq Hd Hc Hres.
  apply find_cluster_and_probability_steps in Hres as (node & l & Hnode & Hlab).
  destruct (enclosing_node_lambda _ _ _ _ _ _ _ _ _ Hnode) as [nb Hnb].
  destruct (resolver_lambda_distance _ _ _ _ Hq Hd Hc) as (nb' & l' & Hnb' & _ & Hl).
  assert (l' = l) as -> by congruence.
  destruct (label_and_probability_bounds _ _ _ _ _ _ Hl Hlab)
    as [H | (Hnan & Hpos & -> & Hcm & Hml)]; [now left |].
  right. eauto 10.
Qed.

Lemma probability_range_witness :
  in_unit_interval (1 / 1.5) = true \/
  is_nan (1 / 1.5) = true /\ 0 <= 1 /\
    (exists nb, _find_neighbor_and_lambda [3; 4; 5; 0] [0; 0.5; 1.5; 4]%float
                  example_core_distances 2 = Ok (nb, infinity)) /\
    (exists n, example_cluster_map !! n = Some 1 /\
               example_max_lambdas !! n = Some infinity).
Proof.
  apply (probability_range 8 example_tree example_cluster_tree
           [3; 4; 5; 0] [0; 0.5; 1.5; 4]%float example_core_distances
           example_cluster_map example_max_lambdas 2 1 (1 / 1.5)%float).
  - split; [lia | simpl; lia | reflexivity | repeat constructor; simpl; lia
           | repeat constructor | repeat constructor].
  - repeat constructor.
  - repeat constructor.
  - vm_compute. reflexivity.
Defined.

(** X11. On a well formed input [_find_cluster_and_probability] returns:
    a cluster tree that is not empty and is well formed above its least
    parent, a well formed query, a record in the condensed tree for every
    candidate, a loop bound above the height of these records, and a
    greatest lambda for every node that has a label.  The label it returns
    is [-1] or a label of the cluster map. *)
Theorem find_cluster_and_probability_returns (fuel : nat)
    (raw_tree cluster_tree : list tree_row) (idx : list Z) (dist core : list float)
    (cluster_map : gmap Z Z) (max_lambdas : gmap Z float) (ms tree_root : Z) :
  np.min (map parent cluster_tree) = Ok tree_root ->
  tree_wf cluster_tree tree_root ->
  query_ok idx dist core ms ->
  (forall nb, In nb idx ->
     exists r, get_tree_row_with_child raw_tree nb = Ok r /\
               (Z.to_nat (parent r - tree_root) < fuel)%nat) ->
  (forall n l, cluster_map !! n = Some l -> is_Some (max_lambdas !! n)) ->
  exists label prob,
    _find_cluster_and_probability fuel raw_tree cluster_tree idx dist core
      cluster_map max_lambdas ms = Ok (label, prob) /\
    (label = -1 \/ exists n, cluster_map !! n = Some label).
Proof.
  intros Hmin Hwf Hq Hrows Hdom.
  destruct (resolver_query_ok _ _ _ _ Hq) as (mr & k & nb & m & _ & _ & _ & Hnb & Hres).
  destruct (Hrows nb) as (r & Hr & Hfuel).
  { eapply list_elem_of_In, list_elem_of_lookup_2, Hnb. }
  assert (Hnode : exists node,
            enclosing_node fuel raw_tree cluster_tree idx dist core ms
              = Ok (node, (1 / m)%float)).
  { unfold enclosing_node. rewrite Hmin, Hres. simpl. rewrite Hr. simpl.
    destruct (1 / m <? lambda_val r)%float; [| eauto].
    destruct (ascend_enough_fuel cluster_tree tree_root (1 / m)%float Hwf fuel
                (parent r) Hfuel) as [q ->].
    simpl. eauto. }
  destruct Hnode as [node Hnode].
  assert (Hlab : exists label prob,
            label_and_probability cluster_map max_lambdas node (1 / m)%float
              = Ok (label, prob)).
  { unfold label_and_probability.
    destruct (cluster_map !! node) as [l |] eqn:El; [| simpl; eauto].
    destruct (0 <=? l); [| eauto].
    destruct (Hdom node l El) as [ml ->].
    destruct (0 <? ml)%float; eauto. }
  destruct Hlab as (label & prob & Hlab). exists label, prob. split.
  - apply find_cluster_and_probability_steps. eauto.
  - now apply label_and_probability_spec in Hlab as (_ & _ & _ & H).
Qed.

Lemma find_cluster_and_probability_returns_witness :
  exists label prob,
    _find_cluster_and_probability 8 example_tree example_cluster_tree
      example_indices example_distances example_core_distances
      example_cluster_map example_max_lambdas 2 = Ok (label, prob) /\
    (label = -1 \/ exists n, example_cluster_map !! n = Some label).
Proof.
  apply (find_cluster_and_probability_returns 8 example_tree example_cluster_tree
           example_indices example_distances example_core_distances
           example_cluster_map example_max_lambdas 2 6).
  - reflexivity.
  - exact example_cluster_tree_wf.
  - split; [lia | simpl; lia | reflexivity | repeat constructor; simpl; lia
           | repeat constructor | repeat constructor].
  - intros nb Hnb. unfold example_indices in Hnb.
    repeat (destruct Hnb as [<- | Hnb];
            [eexists; split; [reflexivity | simpl; lia] |]).
    destruct Hnb.
  - intros n l H. unfold example_cluster_map in H. unfold example_max_lambdas.
    destruct (decide (n = 7)) as [-> | H7]; [vm_compute; eauto |].
    destruct (decide (n = 8)) as [-> | H8]; [vm_compute; eauto |].
    rewrite !lookup_insert_ne, lookup_empty in H by congruence. discriminate.
Defined.

(** The greatest lambdas of [merged_max_lambdas] are finite. *)
Lemma merged_max_lambdas_finite (n : Z) : merged_max_lambdas !! n <> Some infinity.
Proof.
  intros H. unfold merged_max_lambdas in H.
  repeat match type of H with
  | <[?k := _]> _ !! n = _ =>
      destruct (decide (n = k)) as [-> | ?];
      [rewrite lookup_insert_eq in H;
       apply (f_equal (fun o => match o with Some x => Prim2SF x | None => S754_nan end)) in H;
       vm_compute in H; discriminate
      | rewrite lookup_insert_ne in H by congruence]
  end.
  rewrite lookup_empty in H. discriminate.
Qed.

(** X12. A point at mutual reachability distance zero from a candidate
    (well formed query, distances zero or positive, no infinite entry in
    the greatest lambdas) is either left without a cluster, with
    probability zero, or given a label with the probability exactly one. *)
Theorem zero_distance_probability (fuel : nat) (raw_tree cluster_tree : list tree_row)
    (idx : list Z) (dist core mr : list float) (cluster_map : gmap Z Z)
    (max_lambdas : gmap Z float) (ms : Z) (j : nat) (x : float)
    (label : Z) (prob : float) :
  query_ok idx dist core ms ->
  Forall (fun d => is_distance d = true) dist ->
  Forall (fun d => is_distance d = true) core ->
  mr_distances idx dist core ms = Ok mr ->
  mr !! j = Some x ->
  (x =? 0)%float = true ->
  (forall n, max_lambdas !! n <> Some infinity) ->
  _find_cluster_and_probability fuel raw_tree cluster_tree idx dist core
    cluster_map max_lambdas ms = Ok (label, prob) ->
  label < 0 /\ prob = 0%float \/ 0 <= label /\ prob = 1%float.
Proof.
  intros Hq Hd Hc Hmr Hj Hx Hfin Hres.
  apply find_cluster_and_probability_steps in Hres as (node & l & Hnode & Hlab).
  destruct (enclosing_node_lambda _ _ _ _ _ _ _ _ _ Hnode) as [nb Hnb].
  destruct (resolver_query_ok _ _ _ _ Hq) as (mr' & k & nb' & m & Hmr' & _ & Hfm & _ & Hr).
  assert (mr' = mr) as -> by congruence.
  destruct Hfm as (Hk & Hle & _).
  pose proof (mr_distances_are_distances _ _ _ _ _ Hd Hc Hmr) as Hall.
  rewrite (distance_below_zero m x (Forall_lookup_distance _ _ _ Hall Hk)
             (Hle j x Hj) Hx) in Hr.
  change (1 / 0)%float with infinity in Hr.
  assert (l = infinity) as -> by congruence.
  unfold label_and_probability in Hlab.
  destruct (Z.leb_spec 0 (match cluster_map !! node with Some l => l | None => -1 end))
    as [Hpos | Hneg].
  - right. destruct (max_lambdas !! node) as [ml |] eqn:Eml; [| discriminate].
    destruct (0 <? ml)%float eqn:Epos; [| injection Hlab as <- <-; auto].
    rewrite clamped_quotient in Hlab.
    + injection Hlab as <- <-; auto.
    + assumption.
    + intros ->. now destruct (Hfin node).
    + apply infinity_not_below.
  - left. injection Hlab as <- <-; auto.
Qed.

Lemma zero_distance_probability_witness :
  0 < 0 /\ 1%float = 0%float \/ 0 <= 0 /\ 1%float = 1%float.
Proof.
  apply (zero_distance_probability 8 example_tree example_cluster_tree
           coinciding_indices coinciding_distances example_core_distances
           [0; 0; 0; 4]%float
           merged_cluster_map merged_max_lambdas 2 0%nat 0%float 0 1%float).
  - split; [lia | simpl; lia | reflexivity | repeat constructor; simpl; lia
           | repeat constructor | repeat constructor].
  - repeat constructor.
  - repeat constructor.
  - vm_compute. reflexivity.
  - reflexivity.
  - vm_compute. reflexivity.
  - apply merged_max_lambdas_finite.
  - vm_compute. reflexivity.
Defined.

(** * Further properties of the batch predictor *)

(** The body of the loop is the outcome for the point followed by the two
    stores. *)
Lemma predict_point_outcome (fuel : nat) (clusterer : HDBSCAN) (pd : PredictionData)
    (nd : list (list float)) (ni : list (list Z)) (ms : Z)
    (acc : list Z * list float) (i : Z) :
  predict_point fuel clusterer pd nd ni ms acc i =
  match point_outcome fuel clusterer pd nd ni ms i with
  | Ok (label, prob) => Ok (acc.1 ++ [label], acc.2 ++ [prob])
  | Raise e => Raise e
  end.
Proof.
  unfold predict_point, point_outcome.
  destruct (np.getitem ni i); simpl; [| reflexivity].
  destruct (np.getitem nd i); simpl; [| reflexivity].
  now destruct (_find_cluster_and_probability _ _ _ _ _ _ _ _ _) as [[l p] |].
Qed.

(** A loop that ends without an exception worked on every point in order
    and stored the outcome of each. *)
Lemma predict_loop_returns (fuel : nat) (clusterer : HDBSCAN) (pd : PredictionData)
    (nd : list (list float)) (ni : list (list Z)) (ms : Z) (todo : list Z) :
  forall (acc : list Z * list float) (evs : list event) (ls : list Z) (ps : list float),
    predict_loop fuel clusterer pd nd ni ms todo acc = (evs, Ok (ls, ps)) ->
    evs = map PredictPoint todo /\
    exists outs : list (Z * float),
      Forall2 (fun i o => point_outcome fuel clusterer pd nd ni ms i = Ok o) todo outs /\
      ls = acc.1 ++ map fst outs /\ ps = acc.2 ++ map snd outs.
Proof.
  induction todo as [| i todo IH]; intros acc evs ls ps; simpl.
  - intros [= <- ->]. split; [reflexivity |]. exists [].
    split; [constructor |]. simpl. now rewrite !app_nil_r.
  - rewrite predict_point_outcome.
    destruct (point_outcome fuel clusterer pd nd ni ms i) as [[l p] | e] eqn:E;
      [| discriminate].
    destruct (predict_loop fuel clusterer pd nd ni ms todo (acc.1 ++ [l], acc.2 ++ [p]))
      as [evs' r] eqn:El.
    intros [= <- ->]. destruct (IH _ _ _ _ El) as (-> & outs & Hall & -> & ->).
    split; [reflexivity |]. exists ((l, p) :: outs).
    split; [now constructor |]. simpl. now rewrite <- !app_assoc.
Qed.

(** A loop over points of which the first failing one is [i] stops there
    with the exception of that point. *)
Lemma predict_loop_raises (fuel : nat) (clusterer : HDBSCAN) (pd : PredictionData)
    (nd : list (list float)) (ni : list (list Z)) (ms : Z)
    (pre : list Z) (i : Z) (post : list Z) (e : exn) :
  Forall (fun j => is_ok (point_outcome fuel clusterer pd nd ni ms j) = true) pre ->
  point_outcome fuel clusterer pd nd ni ms i = Raise e ->
  forall acc : list Z * list float,
    predict_loop fuel clusterer pd nd ni ms (pre ++ i :: post) acc
      = (map PredictPoint (pre ++ [i]), Raise e).
Proof.
  intros Hpre Hi. induction Hpre as [| j pre Hj Hpre IH]; intros acc; simpl.
  - now rewrite predict_point_outcome, Hi.
  - rewrite predict_point_outcome.
    destruct (point_outcome fuel clusterer pd nd ni ms j) as [[l p] |]; [| discriminate].
    now rewrite IH.
Qed.

(** [range(n)]: its length, its elements, and its split at [i]. *)
Lemma range_length (n : Z) : length (range n) = Z.to_nat n.
Proof. unfold range. now rewrite length_map, length_seq. Qed.

Lemma range_lookup (n : Z) (i : nat) :
  (i < Z.to_nat n)%nat -> range n !! i = Some (Z.of_nat i).
Proof.
  intros H. unfold range. rewrite list_lookup_fmap, lookup_seq_lt by assumption.
  reflexivity.
Qed.

Lemma range_split (n i : Z) :
  0 <= i < n ->
  exists post, range n = range i ++ i :: post /\ range (i + 1) = range i ++ [i].
Proof.
  intros H. unfold range.
  replace (Z.to_nat n) with (Z.to_nat i + S (Z.to_nat n - Z.to_nat i - 1))%nat by lia.
  replace (Z.to_nat (i + 1)) with (Z.to_nat i + 1)%nat by lia.
  rewrite !seq_app, !map_app. simpl.
  rewrite Z2Nat.id by lia. eauto.
Qed.

(** X13. What [approximate_predict] returns has one label and one
    probability for each point, in the order of the points: the label and
    the probability of the point number [i] are what
    [_find_cluster_and_probability] returns for the row [i] of the answer
    of the space tree; the tree was queried once, for twice [min_samples]
    neighbours, and then every point was worked on in turn. *)
Theorem approximate_predict_pointwise (fuel : nat) (clusterer : HDBSCAN)
    (points_to_predict : points) (evs : list event) (labels : list Z)
    (probabilities : list float) :
  approximate_predict fuel clusterer points_to_predict
    = (evs, Ok (labels, probabilities)) ->
  exists pd nd ni,
    prediction_data_ clusterer = Some pd /\
    tree_query pd (rows points_to_predict) (2 * min_samples_of clusterer) = Ok (nd, ni) /\
    evs = QueryTree (2 * min_samples_of clusterer)
            :: map PredictPoint (range (shape points_to_predict).1) /\
    length labels = Z.to_nat (shape points_to_predict).1 /\
    length probabilities = Z.to_nat (shape points_to_predict).1 /\
    forall i : nat, (i < Z.to_nat (shape points_to_predict).1)%nat ->
      exists label prob,
        labels !! i = Some label /\ probabilities !! i = Some prob /\
        point_outcome fuel clusterer pd nd ni (min_samples_of clusterer) (Z.of_nat i)
          = Ok (label, prob).
Proof.
  unfold approximate_predict.
  destruct (prediction_data_ clusterer) as [pd |]; [| discriminate].
  destruct (negb _); [discriminate |].
  destruct (tree_query pd _ _) as [[nd ni] |] eqn:Eq; [| discriminate].
  destruct (predict_loop _ _ _ _ _ _ _ _) as [evs' r] eqn:El.
  intros [= <- ->]. exists pd, nd, ni.
  destruct (predict_loop_returns _ _ _ _ _ _ _ _ _ _ _ El)
    as (-> & outs & Hall & -> & ->).
  pose proof (Forall2_length _ _ _ Hall) as Hlen. rewrite range_length in Hlen.
  simpl. rewrite !length_map.
  split; [reflexivity |]. split; [assumption |]. split; [reflexivity |].
  split; [now symmetry |]. split; [now symmetry |].
  intros i Hi.
  destruct (lookup_lt_is_Some_2 outs i) as [[l p] Ho]; [lia |].
  exists l, p. rewrite !list_lookup_fmap, Ho. repeat split.
  eapply (Forall2_lookup_lr _ _ _ _ _ _ Hall (range_lookup _ _ Hi) Ho).
Qed.

Lemma approximate_predict_pointwise_witness :
  exists pd nd ni,
    prediction_data_ example_clusterer = Some pd /\
    tree_query pd (rows fitted_points) (2 * min_samples_of example_clusterer) = Ok (nd, ni) /\
    [QueryTree 4; PredictPoint 0; PredictPoint 1; PredictPoint 2; PredictPoint 3;
     PredictPoint 4; PredictPoint 5]
      = QueryTree (2 * min_samples_of example_clusterer)
          :: map PredictPoint (range (shape fitted_points).1) /\
    length [0; 0; 0; 1; 1; 1] = Z.to_nat (shape fitted_points).1 /\
    length [nan; nan; nan; 1 / 1.5; 1; 1 / 1.5]%float = Z.to_nat (shape fitted_points).1 /\
    forall i : nat, (i < Z.to_nat (shape fitted_points).1)%nat ->
      exists label prob,
        [0; 0; 0; 1; 1; 1] !! i = Some label /\
        [nan; nan; nan; 1 / 1.5; 1; 1 / 1.5]%float !! i = Some prob /\
        point_outcome 8 example_clusterer pd nd ni (min_samples_of example_clusterer)
          (Z.of_nat i) = Ok (label, prob).
Proof.
  apply (approximate_predict_pointwise 8 example_clusterer fitted_points).
  vm_compute. reflexivity.
Defined.

(** X14. The loop over the points ends at the first point that fails:
    when the two checks pass, the space tree answers, the points before
    the point [i] give a label and a probability and the point [i] raises,
    [approximate_predict] raises that exception after having worked on the
    points up to [i] and on no later one. *)
Theorem approximate_predict_first_failure (fuel : nat) (clusterer : HDBSCAN)
    (points_to_predict : points) (pd : PredictionData)
    (nd : list (list float)) (ni : list (list Z)) (i : Z) (e : exn) :
  prediction_data_ clusterer = Some pd ->
  (shape points_to_predict).2 = (raw_data_shape pd).2 ->
  tree_query pd (rows points_to_predict) (2 * min_samples_of clusterer) = Ok (nd, ni) ->
  0 <= i < (shape points_to_predict).1 ->
  (forall j, 0 <= j < i ->
     is_ok (point_outcome fuel clusterer pd nd ni (min_samples_of clusterer) j) = true) ->
  point_outcome fuel clusterer pd nd ni (min_samples_of clusterer) i = Raise e ->
  approximate_predict fuel clusterer points_to_predict
    = (QueryTree (2 * min_samples_of clusterer) :: map PredictPoint (range (i + 1)),
       Raise e).
Proof.
  intros Hpd Hdim Hq Hi Hbefore Hfail. unfold approximate_predict.
  rewrite Hpd, Hdim, Z.eqb_refl, Hq. simpl.
  destruct (range_split _ _ Hi) as (post & -> & ->).
  rewrite (predict_loop_raises _ _ _ _ _ _ _ _ _ e); [reflexivity | | assumption].
  apply Forall_forall. intros j Hj. apply Hbefore.
  unfold range in Hj. apply list_elem_of_In, in_map_iff in Hj as (k & <- & Hk).
  apply in_seq in Hk. lia.
Qed.

Lemma approximate_predict_first_failure_witness :
  approximate_predict 8 flat_clusterer two_points
    = (QueryTree (2 * min_samples_of flat_clusterer) :: map PredictPoint (range (0 + 1)),
       Raise (ValueError "zero-size array to reduction operation minimum which has no identity")).
Proof.
  apply (approximate_predict_first_failure 8 flat_clusterer two_points
           flat_prediction_data
           [[0.5; 1.5; 2; 6]; [0; 0; 0; 4]]%float [[5; 4; 3; 0]; [0; 1; 2; 3]] 0).
  - reflexivity.
  - reflexivity.
  - vm_compute. reflexivity.
  - simpl. lia.
  - intros j Hj. lia.
  - vm_compute. reflexivity.
Defined.

(** X15. With an empty cluster tree (a condensed tree with no record of a
    cluster) [approximate_predict] returns no label for any batch of at
    least one point: it raises at the first point, and when the answer of
    the space tree has a row for that point the exception is the
    [ValueError] of the minimum of an empty array. *)
Theorem approximate_predict_empty_cluster_tree (fuel : nat) (clusterer : HDBSCAN)
    (points_to_predict : points) (pd : PredictionData)
    (nd : list (list float)) (ni : list (list Z)) :
  prediction_data_ clusterer = Some pd ->
  cluster_tree pd = [] ->
  (shape points_to_predict).2 = (raw_data_shape pd).2 ->
  tree_query pd (rows points_to_predict) (2 * min_samples_of clusterer) = Ok (nd, ni) ->
  0 < (shape points_to_predict).1 ->
  exists e,
    approximate_predict fuel clusterer points_to_predict
      = ([QueryTree (2 * min_samples_of clusterer); PredictPoint 0], Raise e) /\
    (nd <> [] -> ni <> [] ->
     e = ValueError "zero-size array to reduction operation minimum which has no identity").
Proof.
  intros Hpd Hct Hdim Hq Hn.
  assert (Hfail : exists e,
            point_outcome fuel clusterer pd nd ni (min_samples_of clusterer) 0 = Raise e /\
            (nd <> [] -> ni <> [] ->
             e = ValueError "zero-size array to reduction operation minimum which has no identity")).
  { unfold point_outcome, _find_cluster_and_probability, enclosing_node.
    rewrite Hct. destruct ni as [| r0 ni], nd as [| d0 nd]; simpl; eauto.
    - eexists. split; [reflexivity |]. now intros _ [].
    - eexists. split; [reflexivity |]. now intros _ [].
    - eexists. split; [reflexivity |]. now intros []. }
  destruct Hfail as (e & Hfail & He). exists e. split; [| assumption].
  unfold approximate_predict. rewrite Hpd, Hdim, Z.eqb_refl, Hq. simpl.
  destruct (range_split (shape points_to_predict).1 0 ltac:(lia)) as (post & -> & _).
  now rewrite (predict_loop_raises _ _ _ _ _ _ [] 0 post e).
Qed.

Lemma approximate_predict_empty_cluster_tree_witness :
  exists e,
    approximate_predict 8 flat_clusterer two_points
      = ([QueryTree (2 * min_samples_of flat_clusterer); PredictPoint 0], Raise e) /\
    ([[0.5; 1.5; 2; 6]; [0; 0; 0; 4]]%float <> [] -> [[5; 4; 3; 0]; [0; 1; 2; 3]] <> [] ->
     e = ValueError "zero-size array to reduction operation minimum which has no identity").
Proof.
  apply (approximate_predict_empty_cluster_tree 8 flat_clusterer two_points
           flat_prediction_data).
  - reflexivity.
  - reflexivity.
  - reflexivity.
  - vm_compute. reflexivity.
  - simpl. lia.
Defined.




(** The loop reads the clusterer only through its condensed tree. *)
Lemma predict_loop_clusterer (fuel : nat) (c1 c2 : HDBSCAN) (pd : PredictionData)
    (nd : list (list float)) (ni : list (list Z)) (ms : Z) (todo : list Z) :
  condensed_tree_ c1 = condensed_tree_ c2 ->
  forall acc : list Z * list float,
    predict_loop fuel c1 pd nd ni ms todo acc = predict_loop fuel c2 pd nd ni ms todo acc.
Proof.
  intros H. induction todo as [| i todo IH]; intros acc; simpl; [reflexivity |].
  unfold predict_point. rewrite H.
  destruct (x ← np.getitem ni i; _) as [acc' |]; [| reflexivity].
  now rewrite IH.
Qed.

(** X17. A [min_samples] of zero counts as unset (line 353): the clusterer
    is then treated exactly as one without [min_samples], so that the
    space tree is queried for twice [min_cluster_size] neighbours. *)
Theorem approximate_predict_zero_min_samples (fuel : nat) (clusterer : HDBSCAN)
    (points_to_predict : points) :
  min_samples clusterer = Some 0 ->
  approximate_predict fuel clusterer points_to_predict
    = approximate_predict fuel
        {| prediction_data_ := prediction_data_ clusterer;
           condensed_tree_ := condensed_tree_ clusterer;
           min_samples := None;
           min_cluster_size := min_cluster_size clusterer |}
        points_to_predict /\
  min_samples_of clusterer = min_cluster_size clusterer.
Proof.
  intros H. split; [| unfold min_samples_of; now rewrite H].
  unfold approximate_predict, min_samples_of. rewrite H. simpl.
  destruct (prediction_data_ clusterer) as [pd |]; [| reflexivity].
  destruct (negb _); [reflexivity |].
  destruct (tree_query pd _ _) as [[nd ni] |]; [| reflexivity].
  now rewrite (predict_loop_clusterer fuel clusterer
                 {| prediction_data_ := Some pd;
                    condensed_tree_ := condensed_tree_ clusterer;
                    min_samples := None;
                    min_cluster_size := min_cluster_size clusterer |}).
Qed.

Lemma approximate_predict_zero_min_samples_witness :
  approximate_predict 8
    {| prediction_data_ := Some example_prediction_data;
       condensed_tree_ := example_tree;
       min_samples := Some 0;
       min_cluster_size := 2 |} example_points
    = approximate_predict 8
        {| prediction_data_ := Some example_prediction_data;
           condensed_tree_ := example_tree;
           min_samples := None;
           min_cluster_size := 2 |} example_points /\
  min_samples_of
    {| prediction_data_ := Some example_prediction_data;
       condensed_tree_ := example_tree;
       min_samples := Some 0;
       min_cluster_size := 2 |} = 2.
Proof.
  apply (approximate_predict_zero_min_samples 8
           {| prediction_data_ := Some example_prediction_data;
              condensed_tree_ := example_tree;
              min_samples := Some 0;
              min_cluster_size := 2 |} example_points).
  reflexivity.
Defined.

(** X18. When the answer of the space tree is a well formed query with
    distances that are zero or positive for every point, the core
    distances are zero or positive and no greatest lambda is infinite,
    every probability that [approximate_predict] returns lies between
    zero and one. *)
Theorem approximate_predict_probabilities (fuel : nat) (clusterer : HDBSCAN)
    (points_to_predict : points) (pd : PredictionData)
    (nd : list (list float)) (ni : list (list Z))
    (evs : list event) (labels : list Z) (probabilities : list float) :
  prediction_data_ clusterer = Some pd ->
  tree_query pd (rows points_to_predict) (2 * min_samples_of clusterer) = Ok (nd, ni) ->
  (forall (i : nat) (idx_i : list Z) (dist_i : list float),
     ni !! i = Some idx_i -> nd !! i = Some dist_i ->
     query_ok idx_i dist_i (core_distances pd) (min_samples_of clusterer) /\
     Forall (fun d => is_distance d = true) dist_i) ->
  Forall (fun d => is_distance d = true) (core_distances pd) ->
  (forall n, max_lambdas pd !! n <> Some infinity) ->
  approximate_predict fuel clusterer points_to_predict
    = (evs, Ok (labels, probabilities)) ->
  Forall (fun p => in_unit_interval p = true) probabilities.
Proof.
  intros Hpd Hq Hrows Hcore Hfin. unfold approximate_predict. rewrite Hpd.
  destruct (negb _); [discriminate |]. rewrite Hq.
  destruct (predict_loop _ _ _ _ _ _ _ _) as [evs' r] eqn:El.
  intros [= <- ->].
  destruct (predict_loop_returns _ _ _ _ _ _ _ _ _ _ _ El) as (_ & outs & Hall & _ & ->).
  simpl. unfold range in Hall. apply Forall2_fmap_l in Hall.
  apply Forall_fmap. eapply Forall2_Forall_r; [exact Hall |].
  apply Forall_forall. intros k _ [label prob] Hout. simpl.
  unfold compose, point_outcome in Hout.
  destruct (np.getitem ni (Z.of_nat k)) as [idx_k |] eqn:Ei; simpl in Hout;
    [| discriminate].
  destruct (np.getitem nd (Z.of_nat k)) as [dist_k |] eqn:Ed; simpl in Hout;
    [| discriminate].
  destruct (Hrows k idx_k dist_k (getitem_nat_inv _ _ _ Ei) (getitem_nat_inv _ _ _ Ed))
    as [Hqk Hdk].
  apply find_cluster_and_probability_steps in Hout as (node & l & Hnode & Hlab).
  destruct (enclosing_node_lambda _ _ _ _ _ _ _ _ _ Hnode) as [nb Hnb].
  destruct (resolver_lambda_distance _ _ _ _ Hqk Hdk Hcore) as (nb' & l' & Hnb' & _ & Hl).
  assert (l' = l) as -> by congruence.
  destruct (label_and_probability_bounds _ _ _ _ _ _ Hl Hlab)
    as [H | (_ & _ & _ & _ & Hml)]; [exact H |].
  now destruct (Hfin node).
Qed.

Lemma approximate_predict_probabilities_witness :
  Forall (fun p => in_unit_interval p = true) [1; 1; 1; 1; 1; 1]%float.
Proof.
  apply (approximate_predict_probabilities 8 merged_clusterer fitted_points
           merged_prediction_data
           [[0; 0; 0; 4]; [0; 0; 0; 4]; [0; 0; 0; 4];
            [0; 0.5; 1.5; 4]; [0; 0.5; 1; 4.5]; [0; 1; 1.5; 5.5]]%float
           [[0; 1; 2; 3]; [0; 1; 2; 3]; [0; 1; 2; 3];
            [3; 4; 5; 0]; [4; 3; 5; 0]; [5; 4; 3; 0]]
           [QueryTree 4; PredictPoint 0; PredictPoint 1; PredictPoint 2;
            PredictPoint 3; PredictPoint 4; PredictPoint 5]
           [0; 0; 0; 0; 0; 0]).
  - reflexivity.
  - vm_compute. reflexivity.
  - intros i idx_i dist_i Hi Hd.
    change (min_samples_of merged_clusterer) with 2.
    change (core_distances merged_prediction_data) with example_core_distances.
    do 6 (destruct i as [| i];
          [injection Hi as <-; injection Hd as <-;
           split; [split; [lia | simpl; lia | reflexivity
                          | repeat constructor; simpl; lia
                          | repeat constructor | repeat constructor]
                  | repeat constructor] |]).
    discriminate Hi.
  - repeat constructor.
  - apply merged_max_lambdas_finite.
  - vm_compute. reflexivity.
Defined.

(** * The clusters below a cluster *)

(** The children of a list of nodes. *)
Lemma children_of_spec (cluster_tree : list tree_row) (nodes : list Z) (x : Z) :
  In x (children_of cluster_tree nodes) <->
  exists r, In r cluster_tree /\ child r = x /\ In (parent r) nodes.
Proof.
  unfold children_of. rewrite in_map_iff. split.
  - intros (r & Hc & Hr). apply filter_In in Hr as [Hr Hp].
    apply bool_decide_eq_true, list_elem_of_In in Hp. eauto.
  - intros (r & Hr & Hc & Hp). exists r. split; [assumption |].
    apply filter_In. split; [assumption |].
    now apply bool_decide_eq_true, list_elem_of_In.
Qed.

(** One turn of the loop of lines 72 to 77. *)
Lemma clusters_below_step (fuel : nat) (cluster_tree : list tree_row)
    (to_process found : list Z) :
  to_process <> [] ->
  _clusters_below (S fuel) cluster_tree to_process found
    = _clusters_below fuel cluster_tree (children_of cluster_tree to_process)
        (found ++ to_process).
Proof. intros H. simpl. now destruct to_process. Qed.

(** What the loop returns: the nodes it had found, then the nodes it had
    to process, then nodes that are each the child of a processed node;
    and every child of a processed node is among them. *)
Lemma clusters_below_loop (fuel : nat) (cluster_tree : list tree_row) :
  forall (to_process found res : list Z),
    _clusters_below fuel cluster_tree to_process found = Ok res ->
    exists rest,
      res = found ++ to_process ++ rest /\
      (forall x, In x rest ->
         exists r, In r cluster_tree /\ child r = x /\ In (parent r) (to_process ++ rest)) /\
      (forall r, In r cluster_tree -> In (parent r) (to_process ++ rest) ->
         In (child r) rest).
Proof.
  induction fuel as [| fuel IH]; intros tp found res; [discriminate |].
  destruct tp as [| c tp].
  - simpl. intros [= <-]. exists []. split; [now rewrite app_nil_r |].
    split; [intros ? [] | intros ? ? []].
  - rewrite clusters_below_step by discriminate. intros H.
    destruct (IH _ _ _ H) as (rest & -> & Hsound & Hclosed).
    exists (children_of cluster_tree (c :: tp) ++ rest).
    split; [now rewrite <- !app_assoc |]. split.
    + intros x Hx. apply in_app_or in Hx as [Hx | Hx].
      * apply children_of_spec in Hx as (r & Hr & Hc & Hp).
        exists r. repeat split; try assumption. apply in_or_app. now left.
      * destruct (Hsound x Hx) as (r & Hr & Hc & Hp).
        exists r. repeat split; try assumption. apply in_or_app. now right.
    + intros r Hr Hp. apply in_or_app. apply in_app_or in Hp as [Hp | Hp].
      * left. apply children_of_spec. eauto.
      * right. now apply Hclosed.
Qed.

(** X19. What [_clusters_below] returns for a cluster starts with the
    cluster itself; every later node is the child, in the cluster tree, of
    a node of the result; and the result holds every child of each of its
    nodes.  *)
Theorem clusters_below_closed (fuel : nat) (cluster_tree : list tree_row)
    (cluster : Z) (res : list Z) :
  _clusters_below fuel cluster_tree [cluster] [] = Ok res ->
  exists rest,
    res = cluster :: rest /\
    (forall x, In x rest ->
       exists r, In r cluster_tree /\ child r = x /\ In (parent r) res) /\
    (forall r, In r cluster_tree -> In (parent r) res -> In (child r) res).
Proof.
  intros H. destruct (clusters_below_loop _ _ _ _ _ H) as (rest & -> & Hs & Hc).
  exists rest. split; [reflexivity |]. split; [exact Hs |].
  intros r Hr Hp. right. now apply Hc.
Qed.

Lemma clusters_below_closed_witness :
  exists rest,
    [6; 7; 8] = 6 :: rest /\
    (forall x, In x rest ->
       exists r, In r example_cluster_tree /\ child r = x /\ In (parent r) [6; 7; 8]) /\
    (forall r, In r example_cluster_tree -> In (parent r) [6; 7; 8] ->
       In (child r) [6; 7; 8]).
Proof.
  apply (clusters_below_closed 3 example_cluster_tree 6 [6; 7; 8]).
  vm_compute. reflexivity.
Defined.

(** The loop ends when the nodes to process lie between [lo] and [top] and
    every record of the tree leads to a greater node, not above [top]. *)
Lemma clusters_below_loop_ends (cluster_tree : list tree_row) (top : Z) :
  ids_increase cluster_tree top ->
  forall (fuel : nat) (lo : Z) (to_process found : list Z),
    (forall x, In x to_process -> lo <= x <= top) ->
    (Z.to_nat (top - lo + 1) + 1 <= fuel)%nat ->
    exists res, _clusters_below fuel cluster_tree to_process found = Ok res.
Proof.
  intros Hinc. induction fuel as [| fuel IH]; intros lo tp found Hrange Hfuel; [lia |].
  destruct tp as [| c tp]; [simpl; eauto |].
  rewrite clusters_below_step by discriminate.
  pose proof (Hrange c (or_introl eq_refl)) as Hc.
  apply (IH (lo + 1)).
  - intros x Hx. apply children_of_spec in Hx as (r & Hr & <- & Hp).
    specialize (Hinc r Hr). specialize (Hrange _ Hp). lia.
  - lia.
Qed.

(** X20. The loop of [_clusters_below] ends on every cluster tree whose
    records lead from a node to a greater one: with [top] the greatest
    node, it takes no more than [top - cluster + 2] tests of its
    condition. *)
Theorem clusters_below_terminates (fuel : nat) (cluster_tree : list tree_row)
    (top cluster : Z) :
  ids_increase cluster_tree top ->
  (Z.to_nat (top - cluster) + 2 <= fuel)%nat ->
  exists res, _clusters_below fuel cluster_tree [cluster] [] = Ok res.
Proof.
  intros Hinc Hfuel. destruct fuel as [| fuel]; [lia |].
  rewrite clusters_below_step by discriminate.
  apply (clusters_below_loop_ends cluster_tree top Hinc fuel (cluster + 1)).
  - intros x Hx. apply children_of_spec in Hx as (r & Hr & <- & Hp).
    specialize (Hinc r Hr). destruct Hp as [Hp | []]. lia.
  - lia.
Qed.

Lemma clusters_below_terminates_witness :
  exists res, _clusters_below 4 example_cluster_tree [6] [] = Ok res.
Proof.
  apply (clusters_below_terminates 4 example_cluster_tree 8 6).
  - intros r Hr. change example_cluster_tree with
      [TreeRow 6 7 0.25 3; TreeRow 6 8 0.25 3]%float in Hr.
    destruct Hr as [<- | [<- | []]]; simpl; lia.
  - simpl. lia.
Defined.

(** X21. The loop of [_clusters_below] keeps no account of the nodes it
    has seen: on a cluster tree with a record that leads from a node to
    that same node the loop started at that node never ends. *)
Theorem clusters_below_self_loop (cluster_tree : list tree_row) (r : tree_row) :
  In r cluster_tree -> parent r = child r ->
  forall fuel : nat,
    _clusters_below fuel cluster_tree [parent r] [] = Raise LoopFuelExhausted.
Proof.
  intros Hr Hself fuel.
  assert (H : forall (to_process found : list Z),
             In (parent r) to_process ->
             _clusters_below fuel cluster_tree to_process found = Raise LoopFuelExhausted).
  { induction fuel as [| fuel IH]; intros tp found Hin; [reflexivity |].
    rewrite clusters_below_step by (intros ->; destruct Hin).
    apply IH. apply children_of_spec. exists r. now rewrite <- Hself. }
  apply H. now left.
Qed.

Lemma clusters_below_self_loop_witness :
  _clusters_below 1000 [TreeRow 6 6 0.25%float 3] [parent (TreeRow 6 6 0.25%float 3)] []
    = Raise LoopFuelExhausted.
Proof.
  apply (clusters_below_self_loop [TreeRow 6 6 0.25%float 3] (TreeRow 6 6 0.25%float 3)).
  - now left.
  - reflexivity.
Defined.

(** * The labels of the selected clusters *)

(** The entries of a dict built from pairs with distinct keys. *)
Lemma fold_insert_other {V : Type} (l : list (Z * V)) (m : gmap Z V) (k : Z) :
  ~ In k (map fst l) ->
  fold_left (fun m kv => <[kv.1 := kv.2]> m) l m !! k = m !! k.
Proof.
  revert m. induction l as [| [k' v'] l IH]; intros m Hk; simpl; [reflexivity |].
  rewrite IH by (intros H; apply Hk; now right).
  apply lookup_insert_ne. intros ->. apply Hk. now left.
Qed.

Lemma fold_insert_found {V : Type} (l : list (Z * V)) (m : gmap Z V) (k : Z) (v : V) :
  List.NoDup (map fst l) -> In (k, v) l ->
  fold_left (fun m kv => <[kv.1 := kv.2]> m) l m !! k = Some v.
Proof.
  revert m. induction l as [| [k' v'] l IH]; intros m Hnd Hin; simpl; [destruct Hin |].
  inversion Hnd as [| ? ? Hnotin Hnd']; subst.
  destruct Hin as [[= -> ->] | Hin].
  - rewrite fold_insert_other by assumption. apply lookup_insert_eq.
  - now apply IH.
Qed.

Lemma zip_range_fst (keys : list Z) :
  map fst (zip keys (range (Z.of_nat (length keys)))) = keys.
Proof.
  apply (fst_zip keys (range (Z.of_nat (length keys)))).
  rewrite range_length. lia.
Qed.

(** X22. Line 91: when no cluster is selected twice, the cluster at the
    position [i] of the selected clusters gets the label [i], and a node
    that is not selected gets none. *)
Theorem selected_cluster_labels (selected_clusters : list Z) :
  List.NoDup selected_clusters ->
  (forall (i : nat) (c : Z), selected_clusters !! i = Some c ->
     dict_zip selected_clusters (range (Z.of_nat (length selected_clusters))) !! c
       = Some (Z.of_nat i)) /\
  (forall c, ~ In c selected_clusters ->
     dict_zip selected_clusters (range (Z.of_nat (length selected_clusters))) !! c = None).
Proof.
  intros Hnd. unfold dict_zip. split.
  - intros i c Hi. apply fold_insert_found; [now rewrite zip_range_fst |].
    apply list_elem_of_In. apply (list_elem_of_lookup_2 _ i).
    apply lookup_zip_with_Some. exists c, (Z.of_nat i).
    split; [reflexivity |]. split; [assumption |].
    apply range_lookup. apply lookup_lt_Some in Hi. lia.
  - intros c Hc. rewrite fold_insert_other by now rewrite zip_range_fst.
    apply lookup_empty.
Qed.

Lemma selected_cluster_labels_witness :
  (forall (i : nat) (c : Z), [7; 8] !! i = Some c ->
     dict_zip [7; 8] (range (Z.of_nat (length [7; 8]))) !! c = Some (Z.of_nat i)) /\
  (forall c, ~ In c [7; 8] ->
     dict_zip [7; 8] (range (Z.of_nat (length [7; 8]))) !! c = None).
Proof.
  apply (selected_cluster_labels [7; 8]).
  repeat constructor; simpl; lia.
Defined.

(** * The exception of [_extend_condensed_tree] *)

(** X23. On a well formed input (a well formed tree with its root, a well
    formed query, a record in the tree for every candidate, and a loop
    bound above the height of these records) [_extend_condensed_tree]
    gets as far as its last line and raises the [TypeError] of
    [np.append]; no other exception comes first. *)
Theorem extend_raises_TypeError (fuel : nat) (tree : list tree_row)
    (idx : list Z) (dist core : list float) (ms tree_root : Z) :
  np.min (map parent tree) = Ok tree_root ->
  tree_wf tree tree_root ->
  query_ok idx dist core ms ->
  (forall nb, In nb idx ->
     exists r, get_tree_row_with_child tree nb = Ok r /\
               (Z.to_nat (parent r - tree_root) < fuel)%nat) ->
  _extend_condensed_tree fuel tree idx dist core ms = Raise TypeError.
Proof.
  intros Hmin Hwf Hq Hrows. unfold _extend_condensed_tree. rewrite Hmin. simpl.
  destruct (resolver_query_ok _ _ _ _ Hq) as (mr & k & nb & m & _ & _ & _ & Hnb & ->).
  simpl.
  destruct (Hrows nb) as (r & Hr & Hfuel).
  { eapply list_elem_of_In, list_elem_of_lookup_2, Hnb. }
  destruct (new_tree_row_content fuel tree tree_root nb (1 / m)%float r Hwf Hr Hfuel)
    as (p & l & -> & _).
  reflexivity.
Qed.

Lemma extend_raises_TypeError_witness :
  _extend_condensed_tree 8 example_tree example_indices example_distances
    example_core_distances 2 = Raise TypeError.
Proof.
  apply (extend_raises_TypeError 8 example_tree example_indices example_distances
           example_core_distances 2 6).
  - reflexivity.
  - exact example_tree_wf.
  - split; [lia | simpl; lia | reflexivity | repeat constructor; simpl; lia
           | repeat constructor | repeat constructor].
  - intros nb Hnb. unfold example_indices in Hnb.
    repeat (destruct Hnb as [<- | Hnb];
            [eexists; split; [reflexivity | simpl; lia] |]).
    destruct Hnb.
Defined.
